(** * LLMProxy webhook receiver: examples/webhook-receiver.py

    A shallow embedding of the Flask example that receives usage records
    and appends them to [usage_log.jsonl], and the properties of its two
    view functions, [receive_usage] and [health].

    The script is twenty lines of glue around three library services, and
    the embedding follows it step by step:
    - [request.json]: the request is represented by what evaluating this
      attribute does: it yields the parsed value, aborts with an HTTP
      error, or raises what the parser raised;
    - [json.dumps]: the encoder of the [json] module, for [indent=None]
      and for [indent=2], with [ensure_ascii=False], on values within
      the limits of the interpreter ([within_limits]);
    - [print], [open(..., 'a', encoding='utf-8')], [f.write] and the
      [with] statement: text streams over a console, taken to be a
      utf-8 stream, and over the bytes of the log file, each able to
      raise the exceptions Python raises.

    Python [str] values are lists of code points, the log file is a list
    of bytes. *)

From Stdlib Require Import String Ascii.
From Stdlib Require Import List NArith ZArith Lia Bool Arith.
From Stdlib Require Import Decimal DecimalZ DecimalFacts DecimalNat.
From Stdlib.Strings Require Import Byte.
Import ListNotations.

Local Open Scope N_scope.

(* ================================================================= *)
(** ** Text and bytes *)

(** A Python [str] is a sequence of code points; [bytes] is what a file
    holds. *)
Definition codepoint := N.
Definition text := list codepoint.
Definition bytes := list byte.

(** The text of a literal whose characters are all below U+0100. *)
Definition txt (s : string) : text :=
  List.map N_of_ascii (list_ascii_of_string s).
Arguments txt s%_string_scope.

(** [sep.join(parts)] *)
Fixpoint join (sep : text) (parts : list text) : text :=
  match parts with
  | [] => []
  | [p] => p
  | p :: ps => p ++ sep ++ join sep ps
  end.

(** Decimal digits of a natural number or an integer, as [str(n)] and
    [int.__repr__] print them. *)
Fixpoint uint_text (d : uint) : text :=
  match d with
  | Nil => []
  | D0 u => 48 :: uint_text u
  | D1 u => 49 :: uint_text u
  | D2 u => 50 :: uint_text u
  | D3 u => 51 :: uint_text u
  | D4 u => 52 :: uint_text u
  | D5 u => 53 :: uint_text u
  | D6 u => 54 :: uint_text u
  | D7 u => 55 :: uint_text u
  | D8 u => 56 :: uint_text u
  | D9 u => 57 :: uint_text u
  end.

Definition nat_text (n : nat) : text := uint_text (Nat.to_uint n).

Definition int_text (i : Decimal.int) : text :=
  match i with
  | Pos u => uint_text u
  | Neg u => 45 :: uint_text u
  end.

(** One lowercase hexadecimal digit, and [format(n, '0<w>x')]. *)
Definition hex_digit (n : N) : codepoint :=
  if n <? 10 then 48 + n else 87 + n.

Fixpoint hex_text (width : nat) (n : N) : text :=
  match width with
  | O => []
  | S w => hex_text w (n / 16) ++ [hex_digit (n mod 16)]
  end.

(* ================================================================= *)
(** ** Exceptions *)

(** The exception classes that can reach the [except Exception] clause
    of [receive_usage]: the abort of [request.json] (werkzeug's
    [HTTPException], a subclass of [Exception]), the codec error of a
    text stream, the operating system's error on the log file, and the
    [RecursionError] of a parser that nests too deep. *)
Inductive Exception :=
| UnicodeEncodeError (encoding : string) (object : text)
                     (start stop : nat) (reason : string)
| OSError (errno : nat) (strerror : string) (filename : option string)
| HTTPException (code : nat) (name description : string)
| RecursionError (message : string).

(** [str(e)].  [UnicodeEncodeError.__str__] names the offending
    character when there is one and the range of positions otherwise;
    [OSError.__str__] is [[Errno n] strerror], followed by the repr of
    the file name when the error carries one (a name such as
    [usage_log.jsonl], without quote or backslash, is printed between
    single quotes); werkzeug prints [code name: description]; a
    [RecursionError] prints its message. *)
Definition badchar_text (c : codepoint) : text :=
  if c <=? 0xff then txt "\x" ++ hex_text 2 c
  else if c <=? 0xffff then txt "\u" ++ hex_text 4 c
  else txt "\U" ++ hex_text 8 c.

Definition str (e : Exception) : text :=
  match e with
  | UnicodeEncodeError encoding object start stop reason =>
      if (Nat.ltb start (List.length object)) && (Nat.eqb stop (S start)) then
        txt "'" ++ txt encoding ++ txt "' codec can't encode character '"
          ++ badchar_text (nth start object 0)
          ++ txt "' in position " ++ nat_text start
          ++ txt ": " ++ txt reason
      else
        txt "'" ++ txt encoding ++ txt "' codec can't encode characters in position "
          ++ nat_text start ++ txt "-" ++ nat_text (Nat.pred stop)
          ++ txt ": " ++ txt reason
  | OSError errno strerror filename =>
      txt "[Errno " ++ nat_text errno ++ txt "] " ++ txt strerror
        ++ match filename with
           | Some name => txt ": '" ++ txt name ++ txt "'"
           | None => []
           end
  | HTTPException code name description =>
      nat_text code ++ txt " " ++ txt name ++ txt ": " ++ txt description
  | RecursionError message => txt message
  end.

(* ================================================================= *)
(** ** The utf-8 codec *)

(** A lone surrogate is a code point of a [str] that utf-8 cannot
    encode. *)
Definition is_surrogate (c : codepoint) : bool :=
  (0xD800 <=? c) && (c <=? 0xDFFF).

Definition byte_of_N (n : N) : byte :=
  match Byte.of_N n with
  | Some b => b
  | None => x00
  end.

Definition utf8_char (c : codepoint) : bytes :=
  if c <? 0x80 then [byte_of_N c]
  else if c <? 0x800 then
    [byte_of_N (0xC0 + c / 64); byte_of_N (0x80 + c mod 64)]
  else if c <? 0x10000 then
    [byte_of_N (0xE0 + c / 4096); byte_of_N (0x80 + (c / 64) mod 64);
     byte_of_N (0x80 + c mod 64)]
  else
    [byte_of_N (0xF0 + c / 262144); byte_of_N (0x80 + (c / 4096) mod 64);
     byte_of_N (0x80 + (c / 64) mod 64); byte_of_N (0x80 + c mod 64)].

(** Position of the first surrogate of a text, counted from [i], and
    the length of the run of surrogates that starts a text. *)
Fixpoint find_surrogate (i : nat) (t : text) : option nat :=
  match t with
  | [] => None
  | c :: t' => if is_surrogate c then Some i else find_surrogate (S i) t'
  end.

Fixpoint surrogate_run (t : text) : nat :=
  match t with
  | [] => O
  | c :: t' => if is_surrogate c then S (surrogate_run t') else O
  end.

(** [s.encode('utf-8')] with the [strict] error handler, the one a text
    stream opened with [encoding='utf-8'] uses. *)
Definition utf8_encode (s : text) : Exception + bytes :=
  match find_surrogate 0 s with
  | Some start =>
      inl (UnicodeEncodeError "utf-8" s start
             (start + surrogate_run (skipn start s)) "surrogates not allowed")
  | None => inr (flat_map utf8_char s)
  end.

(** [b.decode('utf-8')], strict: what a reader of the log applies to a
    line.  Continuation bytes out of place, overlong forms, encoded
    surrogates and code points above U+10FFFF are refused. *)
Definition is_cont (b : byte) : bool :=
  (0x80 <=? Byte.to_N b) && (Byte.to_N b <? 0xC0).

Definition cont_bits (b : byte) : N := Byte.to_N b - 0x80.

Fixpoint utf8_decode (b : bytes) : option text :=
  match b with
  | [] => Some []
  | b0 :: r0 =>
    let n0 := Byte.to_N b0 in
    if n0 <? 0x80 then option_map (cons n0) (utf8_decode r0)
    else if n0 <? 0xC2 then None
    else if n0 <? 0xE0 then
      match r0 with
      | b1 :: r1 =>
        if is_cont b1
        then option_map (cons ((n0 - 0xC0) * 64 + cont_bits b1)) (utf8_decode r1)
        else None
      | _ => None
      end
    else if n0 <? 0xF0 then
      match r0 with
      | b1 :: b2 :: r2 =>
        let c := (n0 - 0xE0) * 4096 + cont_bits b1 * 64 + cont_bits b2 in
        if is_cont b1 && is_cont b2 && (0x800 <=? c) && negb (is_surrogate c)
        then option_map (cons c) (utf8_decode r2)
        else None
      | _ => None
      end
    else if n0 <? 0xF5 then
      match r0 with
      | b1 :: b2 :: b3 :: r3 =>
        let c := (n0 - 0xF0) * 262144 + cont_bits b1 * 4096
                 + cont_bits b2 * 64 + cont_bits b3 in
        if is_cont b1 && is_cont b2 && is_cont b3
           && (0x10000 <=? c) && (c <? 0x110000)
        then option_map (cons c) (utf8_decode r3)
        else None
      | _ => None
      end
    else None
  end.

(* ================================================================= *)
(** ** JSON values and [json.dumps] *)

(** A Python [float].  A finite float is named by the decimal literal
    that [float.__repr__] prints for it: an optional sign, the integer
    digits, and a fraction, an exponent or both ([1.5], [1e+16],
    [2.5e-07]).  [repr] is the shortest literal that [float()] reads
    back as the same float, so on these literals, the only ones the
    encoder writes, reading is the identity.  The arithmetic of floats
    is not modelled: the scanner below keeps any other literal ([1.50],
    [1E5]) as it is written, where Python would name the float it
    rounds to by that float's repr. *)
Inductive pyfloat :=
| FNaN
| FInfinity
| FNegInfinity
| FRepr (neg : bool) (ip : uint) (frac : option uint) (exp : option (bool * uint)).

(** What [request.json] evaluates to: [None], a [bool], an [int], a
    [float], a [str], a [list], or a [dict] with [str] keys, which keeps
    its items in insertion order. *)
#[warnings="-register-all"]
Inductive pyjson :=
| PyNone
| PyBool (b : bool)
| PyInt (z : Z)
| PyFloat (f : pyfloat)
| PyStr (s : text)
| PyList (lst : list pyjson)
| PyDict (dct : list (text * pyjson)).

(** [json.encoder.py_encode_basestring]: with [ensure_ascii=False] only
    the quote, the backslash and the control characters below U+0020 are
    escaped; every other code point is written as it is. *)
Definition escape_char (c : codepoint) : text :=
  if c =? 92 then [92; 92]
  else if c =? 34 then [92; 34]
  else if c =? 8 then [92; 98]
  else if c =? 12 then [92; 102]
  else if c =? 10 then [92; 110]
  else if c =? 13 then [92; 114]
  else if c =? 9 then [92; 116]
  else if c <? 32 then [92; 117] ++ hex_text 4 c
  else [c].

Definition encode_basestring (s : text) : text :=
  34 :: flat_map escape_char s ++ [34].

(** [json.encoder.floatstr] with [allow_nan=True]. *)
Definition floatstr (o : pyfloat) : text :=
  match o with
  | FNaN => txt "NaN"
  | FInfinity => txt "Infinity"
  | FNegInfinity => txt "-Infinity"
  | FRepr neg ip frac exp =>
      (if neg then txt "-" else [])
        ++ uint_text ip
        ++ match frac with
           | Some f => txt "." ++ uint_text f
           | None => []
           end
        ++ match exp with
           | Some (eneg, e) =>
               txt "e" ++ (if eneg then txt "-" else txt "+") ++ uint_text e
           | None => []
           end
  end.

(** The separators the encoder is built with: [', '] between items
    unless an indent is given, then [','] followed by the line break;
    [': '] after a key. *)
Definition item_separator (indent : option nat) : text :=
  match indent with
  | None => txt ", "
  | Some _ => txt ","
  end.

Definition key_separator : text := txt ": ".

Definition newline_indent (indent : option nat) (level : nat) : text :=
  match indent with
  | None => []
  | Some n => 10 :: repeat 32 (n * level)%nat
  end.

(** [json.encoder._make_iterencode], joined into one string. *)
Fixpoint iterencode (indent : option nat) (level : nat) (o : pyjson)
  {struct o} : text :=
  match o with
  | PyStr s => encode_basestring s
  | PyNone => txt "null"
  | PyBool true => txt "true"
  | PyBool false => txt "false"
  | PyInt z => int_text (Z.to_int z)
  | PyFloat f => floatstr f
  | PyList lst =>
      match lst with
      | [] => txt "[]"
      | _ =>
        txt "[" ++ newline_indent indent (S level)
          ++ join (item_separator indent ++ newline_indent indent (S level))
                  (List.map (iterencode indent (S level)) lst)
          ++ newline_indent indent level ++ txt "]"
      end
  | PyDict dct =>
      match dct with
      | [] => txt "{}"
      | _ =>
        txt "{" ++ newline_indent indent (S level)
          ++ join (item_separator indent ++ newline_indent indent (S level))
                  (List.map (fun kv =>
                     match kv with
                     | (k, v) => encode_basestring k ++ key_separator
                                   ++ iterencode indent (S level) v
                     end) dct)
          ++ newline_indent indent level ++ txt "}"
      end
  end.

(** [json.dumps(obj, indent=indent, ensure_ascii=False)] *)
Definition dumps (indent : option nat) (obj : pyjson) : text :=
  iterencode indent 0 obj.

(* ================================================================= *)
(** ** The process and its surroundings *)

(** What a request leaves behind: the text printed on the console and
    the bytes the operating system holds for [usage_log.jsonl].  The
    bytes of [disk] are the ones that outlive the process; what a file
    object has buffered and not flushed is not among them. *)
Record World := mkWorld {
  stdout : text;
  disk : bytes
}.

(** What the surroundings decide for one request: the reading of the
    clock as [strftime] formats it, whether [open] raises (errno and
    message of the [OSError]), and whether the flush that closes the
    file raises, after the medium took the first [accepted] bytes of
    what was buffered. *)
Record Env := mkEnv {
  now : string;
  open_fails : option (nat * string);
  flush_fails : option (nat * nat * string)
}.

(** The request, as far as the view reads it.  The view never looks at
    the bytes of the body, only at [request.json], and what this
    attribute does is decided by Flask from the content type and the
    body: it evaluates to the parsed body (to whatever [json.loads]
    makes of it: [NaN] is read as a float, a lone surrogate escape as a
    surrogate), or aborts with an HTTP error (400 [BadRequest] when the
    parser rejects the body with a [ValueError]), or raises what the
    parser raised and Flask lets through (the [RecursionError] on a
    body nested too deep). *)
Inductive RequestJson :=
| JsonData (data : pyjson)
| JsonAbort (code : nat) (name description : string)
| JsonRaises (e : Exception).

Record Request := mkRequest { json : RequestJson }.

Definition BadRequest (description : string) : RequestJson :=
  JsonAbort 400 "Bad Request" description.

(** What a Flask view returns: [(jsonify(body), status)]. *)
Record Response := mkResponse {
  body : pyjson;
  status : nat
}.

Definition jsonify (items : list (text * pyjson)) : pyjson := PyDict items.

(** Computations that read and change the world and may raise. *)
Definition M (A : Type) : Type := World -> World * (Exception + A).

Definition ret {A} (a : A) : M A := fun w => (w, inr a).

Definition raise {A} (e : Exception) : M A := fun w => (w, inl e).

Definition bind {A B} (m : M A) (k : A -> M B) : M B :=
  fun w =>
    match m w with
    | (w', inl e) => (w', inl e)
    | (w', inr a) => k a w'
    end.

(** [try: m  except Exception as e: handler e] *)
Definition try_except {A} (m : M A) (handler : Exception -> M A) : M A :=
  fun w =>
    match m w with
    | (w', inl e) => handler e w'
    | (w', inr a) => (w', inr a)
    end.

Notation "x <- c1 ;; c2" := (bind c1 (fun x => c2))
  (at level 61, c1 at next level, right associativity).
Notation "c1 ;; c2" := (bind c1 (fun _ => c2))
  (at level 61, right associativity).

(** [request.json] *)
Definition get_json (request : Request) : M pyjson :=
  match json request with
  | JsonData data => ret data
  | JsonAbort code name description =>
      raise (HTTPException code name description)
  | JsonRaises e => raise e
  end.

(** [print(s)] on a console that is a utf-8 text stream with strict
    error handling, the standard output of a process in a utf-8
    locale: the text is encoded before any of it is written.  Consoles
    of another encoding, and consoles that fail, are not modelled. *)
Definition print (s : text) : M unit :=
  fun w =>
    match utf8_encode s with
    | inl e => (w, inl e)
    | inr _ => (mkWorld (stdout w ++ s ++ [10]) (disk w), inr tt)
    end.

(** A file object opened for appending: the bytes [f.write] has encoded
    and that wait for the flush. *)
Record File := mkFile { buffered : bytes }.

(** [f.write(s)]: the text is encoded, which may raise, and buffered. *)
Definition write (f : File) (s : text) : File * (Exception + unit) :=
  match utf8_encode s with
  | inl e => (f, inl e)
  | inr b => (mkFile (buffered f ++ b), inr tt)
  end.

(** [f.close()]: what is buffered goes to the end of the file.  When
    the medium fails, the bytes it accepted before failing stay there;
    with nothing buffered there is nothing to flush. *)
Definition close (env : Env) (f : File) : M unit :=
  fun w =>
    match buffered f, flush_fails env with
    | _ :: _, Some (accepted, errno, strerror) =>
        (mkWorld (stdout w) (disk w ++ firstn accepted (buffered f)),
         inl (OSError errno strerror None))
    | _, _ => (mkWorld (stdout w) (disk w ++ buffered f), inr tt)
    end.

(** [with open('usage_log.jsonl', 'a', encoding='utf-8') as f: block].
    The file is closed when the block is left, also by an exception; an
    exception of the close replaces the one of the block. *)
Definition with_open_append (env : Env)
  (block : File -> File * (Exception + unit)) : M unit :=
  fun w =>
    match open_fails env with
    | Some (errno, strerror) =>
        (w, inl (OSError errno strerror (Some "usage_log.jsonl"%string)))
    | None =>
        match block (mkFile []) with
        | (f, r) =>
          match close env f w with
          | (w', inl e) => (w', inl e)
          | (w', inr _) => (w', r)
          end
        end
    end.

(* ================================================================= *)
(** ** The views *)

Definition rule : text := repeat 61 60.

Definition msg_received : text :=
  [0x7528; 0x91cf; 0x6570; 0x636e; 0x5df2; 0x63a5; 0x6536].

Definition msg_got_usage : text :=
  [0x6536; 0x5230; 0x7528; 0x91cf; 0x6570; 0x636e; 0x3a].

Definition msg_error : text := [0x9519; 0x8bef; 0x3a; 0x20].

(** [@app.route('/llm-usage', methods=['POST'])] *)
Definition receive_usage (env : Env) (request : Request) : M Response :=
  try_except
    (data <- get_json request ;;
     print (10 :: rule) ;;
     print (txt "[" ++ txt (now env) ++ txt "] " ++ msg_got_usage) ;;
     print (dumps (Some 2%nat) data) ;;
     print (rule ++ [10]) ;;
     with_open_append env (fun f => write f (dumps None data ++ [10])) ;;
     ret (mkResponse
            (jsonify [(txt "status", PyStr (txt "ok"));
                      (txt "message", PyStr msg_received)]) 200))
    (fun e =>
     print (msg_error ++ str e) ;;
     ret (mkResponse
            (jsonify [(txt "status", PyStr (txt "error"));
                      (txt "message", PyStr (str e))]) 500)).

(** [@app.route('/health', methods=['GET'])] *)
Definition health : M Response :=
  ret (mkResponse (jsonify [(txt "status", PyStr (txt "healthy"))]) 200).

(** The application serving a sequence of calls, each with what its
    surroundings decide. *)
Inductive Call :=
| PostUsage (env : Env) (request : Request)
| GetHealth.

Definition dispatch (c : Call) : M Response :=
  match c with
  | PostUsage env request => receive_usage env request
  | GetHealth => health
  end.

Fixpoint serve (calls : list Call) (w : World)
  : World * list (Exception + Response) :=
  match calls with
  | [] => (w, [])
  | c :: calls' =>
      match dispatch c w with
      | (w', r) =>
          match serve calls' w' with
          | (w'', rs) => (w'', r :: rs)
          end
      end
  end.

(* ================================================================= *)
(** ** [json.loads], the reader of a line of the log *)

(** [json.decoder.WHITESPACE] *)
Definition is_ws (c : codepoint) : bool :=
  (c =? 32) || (c =? 9) || (c =? 10) || (c =? 13).

Fixpoint skip_ws (s : text) : text :=
  match s with
  | [] => []
  | c :: s' => if is_ws c then skip_ws s' else s
  end.

Definition expect (c : codepoint) (s : text) : option text :=
  match s with
  | [] => None
  | c' :: r => if c' =? c then Some r else None
  end.

Fixpoint strip_prefix (p s : text) : option text :=
  match p with
  | [] => Some s
  | c :: p' =>
      match s with
      | [] => None
      | c' :: s' => if c' =? c then strip_prefix p' s' else None
      end
  end.

Definition hex_value (c : codepoint) : option N :=
  if (48 <=? c) && (c <=? 57) then Some (c - 48)
  else if (97 <=? c) && (c <=? 102) then Some (c - 87)
  else if (65 <=? c) && (c <=? 70) then Some (c - 55)
  else None.

(** [json.decoder._decode_uXXXX] *)
Definition decode_uXXXX (h1 h2 h3 h4 : codepoint) : option N :=
  match hex_value h1, hex_value h2, hex_value h3, hex_value h4 with
  | Some a, Some b, Some c, Some d => Some (((a * 16 + b) * 16 + c) * 16 + d)
  | _, _, _, _ => None
  end.

(** [json.decoder.BACKSLASH] *)
Definition backslash (esc : codepoint) : option codepoint :=
  if esc =? 34 then Some 34
  else if esc =? 92 then Some 92
  else if esc =? 47 then Some 47
  else if esc =? 98 then Some 8
  else if esc =? 102 then Some 12
  else if esc =? 110 then Some 10
  else if esc =? 114 then Some 13
  else if esc =? 116 then Some 9
  else None.

Definition push {A} (c : codepoint) (r : option (text * A)) : option (text * A) :=
  match r with
  | Some (s, rest) => Some (c :: s, rest)
  | None => None
  end.

(** [json.decoder.py_scanstring], strict, from the character after the
    opening quote: the string and what follows its closing quote.  A
    [\u] escape of a high surrogate that is followed by the escape of a
    low one is read as one code point; any other surrogate stays. *)
Fixpoint scanstring (s : text) : option (text * text) :=
  match s with
  | [] => None
  | c :: s1 =>
    if c =? 34 then Some ([], s1)
    else if c =? 92 then
      match s1 with
      | [] => None
      | esc :: s2 =>
        if esc =? 117 then
          match s2 with
          | h1 :: h2 :: h3 :: h4 :: s3 =>
            match decode_uXXXX h1 h2 h3 h4 with
            | None => None
            | Some uni =>
              match s3 with
              | b :: u :: g1 :: g2 :: g3 :: g4 :: s4 =>
                if (0xd800 <=? uni) && (uni <=? 0xdbff) && (b =? 92) && (u =? 117)
                then
                  match decode_uXXXX g1 g2 g3 g4 with
                  | None => None
                  | Some uni2 =>
                    if (0xdc00 <=? uni2) && (uni2 <=? 0xdfff)
                    then push (0x10000 + ((uni - 0xd800) * 1024 + (uni2 - 0xdc00)))
                              (scanstring s4)
                    else push uni (scanstring s3)
                  end
                else push uni (scanstring s3)
              | _ => push uni (scanstring s3)
              end
            end
          | _ => None
          end
        else
          match backslash esc with
          | Some ch => push ch (scanstring s2)
          | None => None
          end
      end
    else if c <? 32 then None
    else push c (scanstring s1)
  end.

Definition is_digit (c : codepoint) : bool := (48 <=? c) && (c <=? 57).

Definition cons_digit (c : codepoint) (u : uint) : uint :=
  if c =? 48 then D0 u
  else if c =? 49 then D1 u
  else if c =? 50 then D2 u
  else if c =? 51 then D3 u
  else if c =? 52 then D4 u
  else if c =? 53 then D5 u
  else if c =? 54 then D6 u
  else if c =? 55 then D7 u
  else if c =? 56 then D8 u
  else D9 u.

(** The longest run of digits that starts a text. *)
Fixpoint scan_digits (s : text) : uint * text :=
  match s with
  | [] => (Nil, [])
  | c :: s' =>
      if is_digit c
      then match scan_digits s' with (u, r) => (cons_digit c u, r) end
      else (Nil, s)
  end.

(** [json.scanner.NUMBER_RE], matched at the start of a text: an
    optional minus sign and an integer part (a zero, or a digit other
    than zero and the digits after it), then, each only if it is
    complete, a fraction (a dot and digits) and an exponent ([e] or [E],
    an optional sign, digits).  The result is the groups and what
    follows the match. *)
Definition match_integer (s : text) : option (uint * text) :=
  match s with
  | [] => None
  | c :: r =>
      if c =? 48 then Some (D0 Nil, r)
      else if is_digit c then Some (scan_digits s)
      else None
  end.

Definition match_frac (s : text) : option uint * text :=
  match s with
  | c :: r =>
      if c =? 46 then
        match scan_digits r with
        | (Nil, _) => (None, s)
        | (u, r') => (Some u, r')
        end
      else (None, s)
  | [] => (None, s)
  end.

Definition match_sign (s : text) : bool * text :=
  match s with
  | c :: r =>
      if c =? 45 then (true, r)
      else if c =? 43 then (false, r)
      else (false, s)
  | [] => (false, s)
  end.

Definition match_exp (s : text) : option (bool * uint) * text :=
  match s with
  | c :: r =>
      if (c =? 101) || (c =? 69) then
        match match_sign r with
        | (eneg, r1) =>
          match scan_digits r1 with
          | (Nil, _) => (None, s)
          | (u, r2) => (Some (eneg, u), r2)
          end
        end
      else (None, s)
  | [] => (None, s)
  end.

Definition match_number (s : text)
  : option (bool * uint * option uint * option (bool * uint) * text) :=
  let (neg, s1) :=
    match s with
    | c :: r => if c =? 45 then (true, r) else (false, s)
    | [] => (false, s)
    end in
  match match_integer s1 with
  | None => None
  | Some (ip, s2) =>
      match match_frac s2 with
      | (frac, s3) =>
        match match_exp s3 with
        | (exp, s4) => Some (neg, ip, frac, exp, s4)
        end
      end
  end.

(** Equality of keys, and [dict(pairs)]: a key met again keeps its
    place and takes the later value. *)
Fixpoint text_eqb (a b : text) : bool :=
  match a, b with
  | [], [] => true
  | x :: a', y :: b' => (x =? y) && text_eqb a' b'
  | _, _ => false
  end.

Fixpoint dict_set (d : list (text * pyjson)) (k : text) (v : pyjson)
  : list (text * pyjson) :=
  match d with
  | [] => [(k, v)]
  | (k', v') :: d' =>
      if text_eqb k k' then (k', v) :: d' else (k', v') :: dict_set d' k v
  end.

Definition dict_of_pairs (pairs : list (text * pyjson)) : list (text * pyjson) :=
  fold_left (fun d kv => dict_set d (fst kv) (snd kv)) pairs [].

(** [json.scanner.py_make_scanner] with [JSONArray] and [JSONObject].
    Python recurses and raises [RecursionError] when the nesting is too
    deep; here [fuel] bounds the calls, and [loads] gives more than any
    text can use. *)
Fixpoint scan_once (fuel : nat) (s : text) {struct fuel} : option (pyjson * text) :=
  match fuel with
  | O => None
  | S fuel' =>
    match s with
    | [] => None
    | c :: s1 =>
      if c =? 34 then
        match scanstring s1 with
        | Some (k, r) => Some (PyStr k, r)
        | None => None
        end
      else if c =? 123 then
        match expect 125 (skip_ws s1) with
        | Some r => Some (PyDict [], r)
        | None =>
            match object_items fuel' (skip_ws s1) with
            | Some (pairs, r) => Some (PyDict (dict_of_pairs pairs), r)
            | None => None
            end
        end
      else if c =? 91 then
        match expect 93 (skip_ws s1) with
        | Some r => Some (PyList [], r)
        | None =>
            match array_items fuel' (skip_ws s1) with
            | Some (values, r) => Some (PyList values, r)
            | None => None
            end
        end
      else
        match strip_prefix (txt "null") s with
        | Some r => Some (PyNone, r)
        | None =>
        match strip_prefix (txt "true") s with
        | Some r => Some (PyBool true, r)
        | None =>
        match strip_prefix (txt "false") s with
        | Some r => Some (PyBool false, r)
        | None =>
        match match_number s with
        | Some (neg, ip, None, None, r) =>
            Some (PyInt (Z.of_int (if neg then Neg ip else Pos ip)), r)
        | Some (neg, ip, frac, exp, r) =>
            Some (PyFloat (FRepr neg ip frac exp), r)
        | None =>
        match strip_prefix (txt "NaN") s with
        | Some r => Some (PyFloat FNaN, r)
        | None =>
        match strip_prefix (txt "Infinity") s with
        | Some r => Some (PyFloat FInfinity, r)
        | None =>
        match strip_prefix (txt "-Infinity") s with
        | Some r => Some (PyFloat FNegInfinity, r)
        | None => None
        end end end end end end end
    end
  end

with array_items (fuel : nat) (s : text) {struct fuel}
  : option (list pyjson * text) :=
  match fuel with
  | O => None
  | S fuel' =>
    match scan_once fuel' s with
    | None => None
    | Some (value, r) =>
      match skip_ws r with
      | [] => None
      | c :: r1 =>
        if c =? 93 then Some ([value], r1)
        else if c =? 44 then
          match array_items fuel' (skip_ws r1) with
          | Some (values, r2) => Some (value :: values, r2)
          | None => None
          end
        else None
      end
    end
  end

with object_items (fuel : nat) (s : text) {struct fuel}
  : option (list (text * pyjson) * text) :=
  match fuel with
  | O => None
  | S fuel' =>
    match expect 34 s with
    | None => None
    | Some s1 =>
      match scanstring s1 with
      | None => None
      | Some (key, r) =>
        match expect 58 (skip_ws r) with
        | None => None
        | Some r1 =>
          match scan_once fuel' (skip_ws r1) with
          | None => None
          | Some (value, r2) =>
            match skip_ws r2 with
            | [] => None
            | c :: r3 =>
              if c =? 125 then Some ([(key, value)], r3)
              else if c =? 44 then
                match object_items fuel' (skip_ws r3) with
                | Some (pairs, r4) => Some ((key, value) :: pairs, r4)
                | None => None
                end
              else None
            end
          end
        end
      end
    end
  end.

(** [json.loads(s)]: one value, with whitespace around it and nothing
    else. *)
Definition loads (s : text) : option pyjson :=
  match scan_once (S (List.length s)) (skip_ws s) with
  | Some (obj, r) =>
      match skip_ws r with
      | [] => Some obj
      | _ :: _ => None
      end
  | None => None
  end.

(* ================================================================= *)
(** ** Reading the log *)

(** The lines of a file, each without its terminator, and what follows
    the last terminator. *)
Fixpoint split_lines (b : bytes) : list bytes * bytes :=
  match b with
  | [] => ([], [])
  | x :: b' =>
      match split_lines b' with
      | (ls, rest) =>
          if Byte.eqb x x0a then ([] :: ls, rest)
          else match ls with
               | [] => ([], x :: rest)
               | l :: ls' => ((x :: l) :: ls', rest)
               end
      end
  end.

(** One line read on its own: decoded as utf-8 and parsed as JSON. *)
Definition parse_line (l : bytes) : option pyjson :=
  match utf8_decode l with
  | Some t => loads t
  | None => None
  end.

Fixpoint parse_lines (ls : list bytes) : option (list pyjson) :=
  match ls with
  | [] => Some []
  | l :: ls' =>
      match parse_line l, parse_lines ls' with
      | Some v, Some vs => Some (v :: vs)
      | _, _ => None
      end
  end.

(** The records of a line-delimited JSON log: every line ends with a
    line feed and parses on its own; there is nothing before, between
    or after the lines. *)
Definition read_log (b : bytes) : option (list pyjson) :=
  match split_lines b with
  | (ls, []) => parse_lines ls
  | (_, _ :: _) => None
  end.

(* ================================================================= *)
(** ** The values Python can hold *)

(** A [str] holds code points up to U+10FFFF. *)
Definition str_ok (s : text) : bool := forallb (fun c => c <? 0x110000) s.

(** The literal of a finite float has an integer part without leading
    zero, and a fraction or an exponent, each with a digit. *)
Definition int_part_ok (ip : uint) : bool :=
  match ip with
  | Nil => false
  | D0 Nil => true
  | D0 _ => false
  | _ => true
  end.

Definition digits_ok (u : uint) : bool :=
  match u with
  | Nil => false
  | _ => true
  end.

Definition float_ok (f : pyfloat) : bool :=
  match f with
  | FRepr neg ip frac exp =>
      int_part_ok ip
      && match frac with Some u => digits_ok u | None => true end
      && match exp with Some (_, e) => digits_ok e | None => true end
      && match frac, exp with None, None => false | _, _ => true end
  | _ => true
  end.

Fixpoint keys_distinct (keys : list text) : bool :=
  match keys with
  | [] => true
  | k :: ks => negb (existsb (text_eqb k) ks) && keys_distinct ks
  end.

(** A value of the types above that Python can hold: strings of code
    points, floats named by a literal [repr] can print, dicts without a
    repeated key. *)
Fixpoint pyjson_ok (o : pyjson) : bool :=
  match o with
  | PyNone | PyBool _ | PyInt _ => true
  | PyFloat f => float_ok f
  | PyStr s => str_ok s
  | PyList lst => forallb pyjson_ok lst
  | PyDict dct =>
      keys_distinct (List.map fst dct)
      && forallb (fun kv => match kv with (k, v) => str_ok k && pyjson_ok v end) dct
  end.

(** Every code point of every string of a value, key or not, passes a
    test. *)
Fixpoint strings_all (p : codepoint -> bool) (o : pyjson) : bool :=
  match o with
  | PyNone | PyBool _ | PyInt _ | PyFloat _ => true
  | PyStr s => forallb p s
  | PyList lst => forallb (strings_all p) lst
  | PyDict dct =>
      forallb (fun kv => match kv with (k, v) => forallb p k && strings_all p v end) dct
  end.

(** No string of the value holds a surrogate code point. *)
Definition surrogate_free (s : text) : bool :=
  forallb (fun c => negb (is_surrogate c)) s.

Definition no_surrogates (o : pyjson) : bool :=
  strings_all (fun c => negb (is_surrogate c)) o.

(* ================================================================= *)
(** ** The parts of [receive_usage] *)

(** The [try] block is three steps: read the body, announce it on the
    console, append it to the log; the [except] clause reports. *)
Definition announce (env : Env) (data : pyjson) : M unit :=
  print (10 :: rule) ;;
  print (txt "[" ++ txt (now env) ++ txt "] " ++ msg_got_usage) ;;
  print (dumps (Some 2%nat) data) ;;
  print (rule ++ [10]).

Definition append_record (env : Env) (data : pyjson) : M unit :=
  with_open_append env (fun f => write f (dumps None data ++ [10])).

Definition ok_response : Response :=
  mkResponse (jsonify [(txt "status", PyStr (txt "ok"));
                       (txt "message", PyStr msg_received)]) 200.

Definition error_response (e : Exception) : Response :=
  mkResponse (jsonify [(txt "status", PyStr (txt "error"));
                       (txt "message", PyStr (str e))]) 500.

Definition usage_try (env : Env) (request : Request) : M Response :=
  data <- get_json request ;;
  announce env data ;;
  append_record env data ;;
  ret ok_response.

Definition usage_except (e : Exception) : M Response :=
  print (msg_error ++ str e) ;;
  ret (error_response e).

(** The bytes of the line that a request with body [data] appends: the
    serialization and the line feed, encoded. *)
Definition record_line (data : pyjson) : bytes :=
  flat_map utf8_char (dumps None data).

Definition healthy_response : Response :=
  mkResponse (jsonify [(txt "status", PyStr (txt "healthy"))]) 200.

(** All the code points of a text are below a bound. *)
Definition below (n : N) (t : text) : bool := forallb (fun c => c <? n) t.

(** What may follow a value in the text [json.dumps] writes: nothing,
    a comma, or the bracket that closes the list or the dict. *)
Definition follows (rest : text) : bool :=
  match rest with
  | [] => true
  | c :: _ => (c =? 44) || (c =? 93) || (c =? 125)
  end.

Definition not_digit_start (rest : text) : bool :=
  match rest with
  | [] => true
  | c :: _ => negb (is_digit c)
  end.

(** What may follow the digits of an integer part or of a fraction. *)
Definition after_digits (tail : text) : bool :=
  match tail with
  | [] => true
  | c :: _ => negb (is_digit c) && negb (c =? 46)
  end.

(** A text that starts with a character a value can start with: not
    whitespace, not a closing bracket. *)
Definition starts_value (s : text) : bool :=
  match s with
  | [] => false
  | c :: _ => negb (is_ws c) && negb (c =? 93) && negb (c =? 125)
  end.

(** The fraction and the exponent of a float literal. *)
Definition frac_text (frac : option uint) : text :=
  match frac with
  | Some f => txt "." ++ uint_text f
  | None => []
  end.

Definition exp_text (exp : option (bool * uint)) : text :=
  match exp with
  | Some (eneg, e) => txt "e" ++ (if eneg then txt "-" else txt "+") ++ uint_text e
  | None => []
  end.

(** The text of an item of a dict, given the encoding of values. *)
Definition enc_item (enc : pyjson -> text) (kv : text * pyjson) : text :=
  match kv with
  | (k, v) => encode_basestring k ++ key_separator ++ enc v
  end.

(** The scanner reads a value back from its encoding: the encoding
    starts as a value must, and with fuel for its length the scanner
    returns the value and what follows the encoding. *)
Definition reads_back (enc : pyjson -> text) (x : pyjson) : Prop :=
  (forall rest, starts_value (enc x ++ rest) = true)
  /\ (forall fuel rest,
        (List.length (enc x) <= fuel)%nat -> follows rest = true ->
        scan_once fuel (enc x ++ rest) = Some (x, rest)).

(** Printable ASCII. *)
Definition printable (t : text) : bool :=
  forallb (fun c => (32 <=? c) && (c <? 128)) t.

(** The sign of a decimal integer. *)
Definition int_neg (i : Decimal.int) : bool :=
  match i with
  | Pos _ => false
  | Neg _ => true
  end.

(* ================================================================= *)
(** ** Sample requests and surroundings *)

(** Surroundings in which nothing fails, in which [open] is refused,
    and in which the medium takes three bytes and is full. *)
Definition env_ok : Env := mkEnv "2025-01-01 12:00:00" None None.

Definition env_denied : Env :=
  mkEnv "2025-01-01 12:00:00" (Some (13%nat, "Permission denied"%string)) None.

Definition env_full : Env :=
  mkEnv "2025-01-01 12:00:00" None
        (Some (3%nat, 28%nat, "No space left on device"%string)).

(** The body [{"model": "gpt-4", "tokens": 123}]. *)
Definition usage_data : pyjson :=
  PyDict [(txt "model", PyStr (txt "gpt-4")); (txt "tokens", PyInt 123)].

Definition usage_request : Request := mkRequest (JsonData usage_data).

(** The body ["\ud800"], valid JSON that [json.loads] reads as a
    string of one surrogate, and a list that holds such a string. *)
Definition surrogate_data : pyjson := PyStr [0xD800].

Definition surrogate_request : Request := mkRequest (JsonData surrogate_data).

Definition surrogate_list_request : Request :=
  mkRequest (JsonData (PyList [PyInt 1; PyStr [0xDC00]])).

(** The body [not-json], on which [request.json] aborts. *)
Definition not_json_request : Request :=
  mkRequest (BadRequest "Failed to decode JSON object: Expecting value: line 1 column 1 (char 0)").

(** A log of one record, and an empty console. *)
Definition old_log : bytes := list_byte_of_string "{}" ++ [x0a].

Definition world0 : World := mkWorld [] old_log.

(* ================================================================= *)
(** ** What [request.json] raises, and the limits of the interpreter *)

(** The exception [request.json] raises, when it raises. *)
Definition raised (j : RequestJson) : option Exception :=
  match j with
  | JsonData _ => None
  | JsonAbort code name description =>
      Some (HTTPException code name description)
  | JsonRaises e => Some e
  end.

(** How deep the lists and dicts of a value nest. *)
Fixpoint depth (o : pyjson) : nat :=
  match o with
  | PyList lst => S (fold_right (fun x n => Nat.max (depth x) n) O lst)
  | PyDict dct =>
      S (fold_right (fun kv n => match kv with
                                 | (_, v) => Nat.max (depth v) n
                                 end) O dct)
  | _ => O
  end.

(** The integers of a value have at most [limit] digits. *)
Fixpoint ints_within (limit : nat) (o : pyjson) : bool :=
  match o with
  | PyInt z => Nat.leb (nb_digits (abs (Z.to_int z))) limit
  | PyList lst => forallb (ints_within limit) lst
  | PyDict dct =>
      forallb (fun kv => match kv with (_, v) => ints_within limit v end) dct
  | _ => true
  end.

(** Python's encoder and parser are partial where the functions above
    are total: they raise [ValueError] on an integer of more than 4300
    digits ([sys.int_info.default_max_str_digits]) and [RecursionError]
    when lists and dicts nest deeper than the stack allows, some
    hundreds of levels under the default recursion limit of 1000.
    Within these bounds they do not raise. *)
Definition within_limits (o : pyjson) : bool :=
  Nat.leb (depth o) 100 && ints_within 4300 o.

Definition request_within_limits (request : Request) : bool :=
  match json request with
  | JsonData data => within_limits data
  | _ => true
  end.

(** The body [NaN]: not JSON, but read by [json.loads] as the float
    not-a-number. *)
Definition nan_request : Request := mkRequest (JsonData (PyFloat FNaN)).

(** A request on which [request.json] raises [RecursionError], as it
    does on a thousand opening brackets. *)
Definition deep_request : Request :=
  mkRequest (JsonRaises
    (RecursionError "maximum recursion depth exceeded while decoding a JSON array from a unicode string")).

(* ================================================================= *)
(** ** What a request leaves in the log *)

(** The bytes a request adds to the file, read off its body and its
    surroundings: nothing when [request.json] raises, when the body
    holds a surrogate or when [open] is refused; what the medium
    accepted of the line when the flush fails; the line otherwise. *)
Definition appended (env : Env) (request : Request) : bytes :=
  match json request with
  | JsonAbort _ _ _ => []
  | JsonRaises _ => []
  | JsonData data =>
      if no_surrogates data then
        match open_fails env, flush_fails env with
        | Some _, _ => []
        | None, Some (accepted, _, _) =>
            firstn accepted (record_line data ++ [x0a])
        | None, None => record_line data ++ [x0a]
        end
      else []
  end.

(** The request is one the view answers 200: a body, without surrogate,
    and neither [open] nor the flush fails. *)
Definition accepted_request (env : Env) (request : Request) : bool :=
  match json request, open_fails env, flush_fails env with
  | JsonData data, None, None => no_surrogates data
  | _, _, _ => false
  end.





(* ================================================================= *)
(** * Properties *)

(** ** Texts below a bound *)

Lemma below_app n a b : below n (a ++ b) = below n a && below n b.
Proof. apply forallb_app. Qed.

Lemma below_weaken n m t : n <= m -> below n t = true -> below m t = true.
Proof.
  intros Hnm. unfold below. rewrite !forallb_forall.
  intros H c Hc. specialize (H c Hc).
  apply N.ltb_lt in H. apply N.ltb_lt. lia.
Qed.

Lemma txt_below s : below 256 (txt s) = true.
Proof.
  unfold below, txt. apply forallb_forall. intros c Hc.
  apply in_map_iff in Hc. destruct Hc as [a [<- _]].
  apply N.ltb_lt. apply N_ascii_bounded.
Qed.

Lemma uint_text_below u : below 256 (uint_text u) = true.
Proof. induction u; simpl; auto. Qed.

Lemma nat_text_below n : below 256 (nat_text n) = true.
Proof. apply uint_text_below. Qed.

Lemma hex_digit_below n : n < 16 -> hex_digit n < 256.
Proof. intros H. unfold hex_digit. destruct (n <? 10); lia. Qed.

Lemma hex_text_below w n : below 256 (hex_text w n) = true.
Proof.
  revert n. induction w as [|w IH]; intros n; simpl; auto.
  rewrite below_app, IH. simpl. rewrite andb_true_r.
  apply N.ltb_lt. apply hex_digit_below. apply N.mod_lt. lia.
Qed.

Ltac below_parts :=
  repeat (rewrite below_app; apply andb_true_iff; split);
  auto using txt_below, nat_text_below, hex_text_below, uint_text_below.

Lemma str_below e : below 256 (str e) = true.
Proof.
  destruct e as [enc obj start stop reason | errno msg file | code name descr
                 | message];
    unfold str.
  - destruct (_ && _); unfold badchar_text.
    + destruct (_ <=? 255); [|destruct (_ <=? 65535)]; below_parts.
    + below_parts.
  - destruct file; below_parts.
  - below_parts.
  - apply txt_below.
Qed.

(** ** Encoding *)

Lemma below_surrogate_free t : below 0xD800 t = true -> surrogate_free t = true.
Proof.
  unfold below, surrogate_free. rewrite !forallb_forall.
  intros H c Hc. specialize (H c Hc). apply N.ltb_lt in H.
  unfold is_surrogate. apply negb_true_iff, andb_false_iff. left.
  apply N.leb_gt. exact H.
Qed.

Lemma surrogate_free_app a b :
  surrogate_free (a ++ b) = surrogate_free a && surrogate_free b.
Proof. apply forallb_app. Qed.

Lemma find_surrogate_none t :
  surrogate_free t = true -> forall i, find_surrogate i t = None.
Proof.
  induction t as [|c t IH]; simpl; intros H i; auto.
  apply andb_true_iff in H. destruct H as [Hc Ht].
  apply negb_true_iff in Hc. rewrite Hc. auto.
Qed.

Lemma find_surrogate_some t :
  surrogate_free t = false -> forall i, exists j, find_surrogate i t = Some j.
Proof.
  induction t as [|c t IH]; simpl; intros H i; [discriminate|].
  destruct (is_surrogate c); simpl in H; eauto.
Qed.

Lemma utf8_encode_ok t :
  surrogate_free t = true -> utf8_encode t = inr (flat_map utf8_char t).
Proof. intros H. unfold utf8_encode. rewrite find_surrogate_none; auto. Qed.

Lemma utf8_encode_inr t b :
  utf8_encode t = inr b -> surrogate_free t = true /\ b = flat_map utf8_char t.
Proof.
  unfold utf8_encode. intros H.
  destruct (surrogate_free t) eqn:E.
  - rewrite find_surrogate_none in H by exact E. inversion H. auto.
  - destruct (find_surrogate_some t E 0%nat) as [j Hj]. rewrite Hj in H.
    discriminate.
Qed.

Lemma print_ok s w :
  surrogate_free s = true ->
  print s w = (mkWorld (stdout w ++ s ++ [10]) (disk w), inr tt).
Proof. intros H. unfold print. rewrite utf8_encode_ok; auto. Qed.

Lemma print_disk s w w' r : print s w = (w', r) -> disk w' = disk w.
Proof.
  unfold print. destruct (utf8_encode s); intros H; inversion H; reflexivity.
Qed.

Lemma msg_error_str_free e : surrogate_free (msg_error ++ str e) = true.
Proof.
  rewrite surrogate_free_app. apply andb_true_iff. split; [reflexivity|].
  apply below_surrogate_free.
  apply below_weaken with (n := 256); [lia | apply str_below].
Qed.

(** The [except] clause never raises: the text it prints is made of
    characters every console encodes. *)
Lemma usage_except_run e w :
  usage_except e w =
    (mkWorld (stdout w ++ (msg_error ++ str e) ++ [10]) (disk w),
     inr (error_response e)).
Proof.
  unfold usage_except, bind. rewrite print_ok by apply msg_error_str_free.
  reflexivity.
Qed.

Lemma receive_usage_blocks env request w :
  receive_usage env request w =
    try_except (usage_try env request) usage_except w.
Proof.
  unfold receive_usage, usage_try, usage_except, announce, append_record,
    try_except, bind, ok_response, error_response.
  destruct (get_json request w) as [w0 [e|data]]; [reflexivity|].
  repeat match goal with
         | |- context [print ?s ?v] =>
             destruct (print s v) as [? [?|?]]; [reflexivity|]
         end.
  reflexivity.
Qed.

Lemma receive_usage_caught env request w w1 e :
  usage_try env request w = (w1, inl e) ->
  receive_usage env request w =
    (mkWorld (stdout w1 ++ (msg_error ++ str e) ++ [10]) (disk w1),
     inr (error_response e)).
Proof.
  intros H. rewrite receive_usage_blocks. unfold try_except. rewrite H.
  apply usage_except_run.
Qed.

(** ** Induction on values *)

Lemma pyjson_induction (P : pyjson -> Prop) :
  P PyNone ->
  (forall b, P (PyBool b)) ->
  (forall z, P (PyInt z)) ->
  (forall f, P (PyFloat f)) ->
  (forall s, P (PyStr s)) ->
  (forall lst, Forall P lst -> P (PyList lst)) ->
  (forall dct, Forall (fun kv => P (snd kv)) dct -> P (PyDict dct)) ->
  forall o, P o.
Proof.
  intros HN HB HI HF HS HL HD.
  fix IH 1.
  intros [ | b | z | f | s | lst | dct ];
    [exact HN | apply HB | apply HI | apply HF | apply HS | apply HL | apply HD].
  - induction lst as [|x l IHl]; constructor; [apply IH | exact IHl].
  - induction dct as [|[k v] d IHd]; constructor; [apply IH | exact IHd].
Qed.

(** ** The characters [json.dumps] writes *)

Section Characters.

Variable p : codepoint -> bool.
Hypothesis p_printable : forall c, 32 <= c -> c < 128 -> p c = true.

Lemma printable_all t : printable t = true -> forallb p t = true.
Proof.
  unfold printable. rewrite !forallb_forall. intros H c Hc.
  specialize (H c Hc). apply andb_true_iff in H. destruct H as [H1 H2].
  apply p_printable; [apply N.leb_le | apply N.ltb_lt]; assumption.
Qed.

Lemma uint_text_printable u : printable (uint_text u) = true.
Proof. induction u; simpl; auto. Qed.

Lemma hex_text_printable w n : printable (hex_text w n) = true.
Proof.
  revert n. induction w as [|w IH]; intros n; simpl; auto.
  unfold printable in *. rewrite forallb_app, IH. simpl.
  rewrite andb_true_r. unfold hex_digit.
  assert (n mod 16 < 16) by (apply N.mod_lt; lia).
  generalize dependent (n mod 16). intros d Hd.
  destruct (N.ltb_spec d 10); cbv iota;
    apply andb_true_iff; split; (apply N.leb_le || apply N.ltb_lt); lia.
Qed.

Lemma printable_app a b : printable (a ++ b) = printable a && printable b.
Proof. apply forallb_app. Qed.

Lemma floatstr_printable f : printable (floatstr f) = true.
Proof.
  destruct f as [ | | | neg ip frac exp]; try reflexivity.
  unfold floatstr.
  rewrite !printable_app, uint_text_printable.
  apply andb_true_iff; split; [destruct neg; reflexivity|].
  cbn [andb]. apply andb_true_iff; split.
  - destruct frac; [|reflexivity].
    rewrite printable_app, uint_text_printable. reflexivity.
  - destruct exp as [[eneg e]|]; [|reflexivity].
    rewrite !printable_app, uint_text_printable.
    destruct eneg; reflexivity.
Qed.

Lemma int_text_printable i : printable (int_text i) = true.
Proof.
  destruct i; simpl; [|unfold printable; simpl]; apply uint_text_printable.
Qed.

Lemma escape_char_all c :
  ((c <? 32) || p c) = true -> forallb p (escape_char c) = true.
Proof.
  intros Hc. unfold escape_char.
  repeat match goal with
         | |- context [if ?c =? ?k then _ else _] =>
             destruct (c =? k); [apply printable_all; reflexivity|]
         end.
  destruct (c <? 32) eqn:E.
  - apply printable_all. unfold printable. rewrite forallb_app.
    apply andb_true_iff; split; [reflexivity | apply hex_text_printable].
  - simpl in *. rewrite Hc. reflexivity.
Qed.

Lemma escaped_all s :
  forallb (fun c => (c <? 32) || p c) s = true ->
  forallb p (flat_map escape_char s) = true.
Proof.
  induction s as [|c s IH]; intros H; [reflexivity|].
  cbn [forallb flat_map] in *.
  apply andb_true_iff in H. destruct H as [Hc Hs].
  rewrite forallb_app, escape_char_all, IH; auto.
Qed.

Lemma encode_basestring_all s :
  forallb (fun c => (c <? 32) || p c) s = true ->
  forallb p (encode_basestring s) = true.
Proof.
  intros H. unfold encode_basestring.
  assert (Hq : p 34 = true) by (apply p_printable; lia).
  cbn [forallb]. rewrite Hq, forallb_app, escaped_all by exact H.
  cbn [forallb]. rewrite Hq. reflexivity.
Qed.

Lemma join_all sep parts :
  forallb p sep = true ->
  Forall (fun t => forallb p t = true) parts ->
  forallb p (join sep parts) = true.
Proof.
  intros Hsep H. induction H as [|t l Ht Hl IH]; simpl; auto.
  destruct l as [|t' l']; auto.
  rewrite !forallb_app, Ht, Hsep, IH. reflexivity.
Qed.

Variable indent : option nat.
Hypothesis p_newline : indent <> None -> p 10 = true.

Lemma newline_indent_all level : forallb p (newline_indent indent level) = true.
Proof.
  unfold newline_indent. destruct indent as [n|]; [|reflexivity].
  simpl. rewrite p_newline by discriminate. simpl.
  apply forallb_forall. intros c Hc. apply repeat_spec in Hc. subst c.
  apply p_printable; lia.
Qed.

Lemma item_separator_all : forallb p (item_separator indent) = true.
Proof. destruct indent; apply printable_all; reflexivity. Qed.

Lemma bracket_all opening closing inner level :
  printable opening = true -> printable closing = true ->
  forallb p inner = true ->
  forallb p (opening ++ newline_indent indent (S level) ++ inner
               ++ newline_indent indent level ++ closing) = true.
Proof.
  intros Ho Hc Hi.
  rewrite !forallb_app, !newline_indent_all, Hi.
  rewrite (printable_all _ Ho), (printable_all _ Hc). reflexivity.
Qed.

(** Whatever the indent, the encoder writes the characters of the
    strings, escaped below U+0020, and printable ASCII around them. *)
Lemma iterencode_all o :
  forall level,
  strings_all (fun c => (c <? 32) || p c) o = true ->
  forallb p (iterencode indent level o) = true.
Proof.
  induction o as [ | b | z | f | s | lst IH | dct IH ] using pyjson_induction;
    intros level Hs.
  - apply printable_all. reflexivity.
  - destruct b; apply printable_all; reflexivity.
  - apply printable_all. apply int_text_printable.
  - apply printable_all. apply floatstr_printable.
  - apply encode_basestring_all. exact Hs.
  - destruct lst as [|x l]; [apply printable_all; reflexivity|].
    cbn [iterencode]. apply bracket_all; try reflexivity.
    apply join_all.
    + rewrite forallb_app, item_separator_all, newline_indent_all. reflexivity.
    + cbn [strings_all] in Hs. rewrite forallb_forall in Hs.
      rewrite Forall_forall in IH. apply Forall_forall. intros t Ht.
      apply in_map_iff in Ht. destruct Ht as [y [<- Hy]]. auto.
  - destruct dct as [|x d]; [apply printable_all; reflexivity|].
    cbn [iterencode]. apply bracket_all; try reflexivity.
    apply join_all.
    + rewrite forallb_app, item_separator_all, newline_indent_all. reflexivity.
    + cbn [strings_all] in Hs. rewrite forallb_forall in Hs.
      rewrite Forall_forall in IH. apply Forall_forall. intros t Ht.
      apply in_map_iff in Ht. destruct Ht as [[k v] [<- Hy]].
      specialize (Hs _ Hy). cbn beta iota in Hs. apply andb_true_iff in Hs.
      destruct Hs as [Hk Hv]. rewrite !forallb_app.
      rewrite encode_basestring_all by exact Hk.
      rewrite (printable_all key_separator) by reflexivity.
      rewrite (IH _ Hy) by exact Hv. reflexivity.
Qed.

End Characters.

Lemma strings_all_impl (p q : codepoint -> bool) o :
  (forall c, p c = true -> q c = true) ->
  strings_all p o = true -> strings_all q o = true.
Proof.
  intros Hpq.
  assert (Ht : forall t, forallb p t = true -> forallb q t = true).
  { intros t. rewrite !forallb_forall. auto. }
  induction o as [ | b | z | f | s | lst IH | dct IH ] using pyjson_induction;
    cbn [strings_all]; auto.
  - rewrite !forallb_forall. rewrite Forall_forall in IH. auto.
  - rewrite !forallb_forall. rewrite Forall_forall in IH.
    intros H [k v] Hkv. specialize (H _ Hkv). cbn beta iota in H.
    apply andb_true_iff in H. destruct H as [Hk Hv].
    apply andb_true_iff. split; [auto | apply (IH _ Hkv); exact Hv].
Qed.

Lemma pyjson_ok_strings o :
  pyjson_ok o = true -> strings_all (fun c => c <? 0x110000) o = true.
Proof.
  induction o as [ | b | z | f | s | lst IH | dct IH ] using pyjson_induction;
    cbn [strings_all pyjson_ok]; auto.
  - rewrite !forallb_forall. rewrite Forall_forall in IH. auto.
  - intros H. apply andb_true_iff in H. destruct H as [_ H]. revert H.
    rewrite !forallb_forall. rewrite Forall_forall in IH.
    intros H [k v] Hkv. specialize (H _ Hkv). cbn beta iota in H.
    apply andb_true_iff in H. destruct H as [Hk Hv].
    apply andb_true_iff. split; [exact Hk | apply (IH _ Hkv); exact Hv].
Qed.

(** A value without surrogates is written without surrogates, with or
    without indent. *)
Lemma dumps_surrogate_free indent data :
  no_surrogates data = true -> surrogate_free (dumps indent data) = true.
Proof.
  intros H. unfold dumps, surrogate_free.
  apply iterencode_all.
  - intros c _ Hc. unfold is_surrogate.
    apply negb_true_iff, andb_false_iff. left. apply N.leb_gt. lia.
  - reflexivity.
  - revert H. apply strings_all_impl. intros c Hc. rewrite Hc.
    apply orb_true_r.
Qed.

(** Without indent the encoder writes no character below U+0020: no
    line feed, no carriage return. *)
Lemma dumps_no_control data :
  forallb (fun c => 32 <=? c) (dumps None data) = true.
Proof.
  unfold dumps. apply iterencode_all.
  - intros c Hc _. apply N.leb_le. exact Hc.
  - intros H. contradiction H. reflexivity.
  - apply strings_all_impl with (p := fun _ => true).
    + intros c _. destruct (N.ltb_spec c 32) as [H|H]; [reflexivity|].
      apply N.leb_le. exact H.
    + clear. induction data as [ | b | z | f | s | lst IH | dct IH ]
        using pyjson_induction; cbn [strings_all]; auto.
      * apply forallb_forall. auto.
      * apply forallb_forall. rewrite Forall_forall in IH. auto.
      * apply forallb_forall. rewrite Forall_forall in IH.
        intros [k v] Hkv. apply andb_true_iff. split.
        -- apply forallb_forall. auto.
        -- apply (IH _ Hkv).
Qed.

Lemma dumps_below data :
  pyjson_ok data = true -> below 0x110000 (dumps None data) = true.
Proof.
  intros H. unfold dumps, below. apply iterencode_all.
  - intros c _ Hc. apply N.ltb_lt. lia.
  - intros H0. contradiction H0. reflexivity.
  - apply pyjson_ok_strings in H. revert H. apply strings_all_impl.
    intros c Hc. rewrite Hc. apply orb_true_r.
Qed.

(** ** The utf-8 codec: decoding what was encoded *)

Ltac ndiv_lia := zify; Z.to_euclidean_division_equations; lia.

Lemma to_N_byte_of_N n : n < 256 -> Byte.to_N (byte_of_N n) = n.
Proof.
  intros H. unfold byte_of_N. destruct (Byte.of_N n) as [b|] eqn:E.
  - apply Byte.to_of_N. exact E.
  - apply Byte.of_N_None_iff in E. lia.
Qed.

Ltac decide_tests :=
  repeat match goal with
         | |- context [?a <? ?b] =>
             first [ rewrite (proj2 (N.ltb_lt a b)) by ndiv_lia
                   | rewrite (proj2 (N.ltb_ge a b)) by ndiv_lia ]
         | |- context [?a <=? ?b] =>
             first [ rewrite (proj2 (N.leb_le a b)) by ndiv_lia
                   | rewrite (proj2 (N.leb_gt a b)) by ndiv_lia ]
         end.

Lemma utf8_decode_char c r :
  c < 0x110000 -> is_surrogate c = false ->
  utf8_decode (utf8_char c ++ r) = option_map (cons c) (utf8_decode r).
Proof.
  intros Hmax Hs. unfold utf8_char.
  destruct (N.ltb_spec c 0x80) as [H1|H1];
    [|destruct (N.ltb_spec c 0x800) as [H2|H2];
      [|destruct (N.ltb_spec c 0x10000) as [H3|H3]]];
    cbn [List.app utf8_decode]; unfold is_cont, cont_bits;
    rewrite ?to_N_byte_of_N by ndiv_lia;
    try match goal with
        | |- context [option_map (cons ?e)] =>
            progress replace e with c by ndiv_lia
        end;
    rewrite ?Hs; decide_tests; reflexivity.
Qed.

Lemma utf8_roundtrip t :
  surrogate_free t = true -> below 0x110000 t = true ->
  utf8_decode (flat_map utf8_char t) = Some t.
Proof.
  unfold surrogate_free, below.
  induction t as [|c t IH]; cbn [forallb flat_map]; intros Hs Hb; [reflexivity|].
  apply andb_true_iff in Hs. destruct Hs as [Hc Hs].
  apply andb_true_iff in Hb. destruct Hb as [Hcb Hb].
  rewrite utf8_decode_char.
  - rewrite IH by assumption. reflexivity.
  - apply N.ltb_lt. exact Hcb.
  - apply negb_true_iff. exact Hc.
Qed.

(** A character other than the line feed is encoded without the byte
    0A. *)
Lemma utf8_char_no_lf c : c <> 10 -> ~ In x0a (utf8_char c).
Proof.
  intros Hc Hin. unfold utf8_char in Hin.
  assert (Hb : forall n, n < 256 -> n <> 10 -> byte_of_N n <> x0a).
  { intros n Hn Hne E. apply Hne. rewrite <- (to_N_byte_of_N n Hn), E.
    reflexivity. }
  destruct (N.ltb_spec c 0x80) as [H1|H1];
    [|destruct (N.ltb_spec c 0x800) as [H2|H2];
      [|destruct (N.ltb_spec c 0x10000) as [H3|H3]]];
    cbn [In] in Hin;
    repeat match goal with
           | H : _ \/ _ |- _ => destruct H as [H|H]
           | H : False |- _ => contradiction
           | H : byte_of_N ?n = x0a |- _ =>
               destruct (N.ltb_spec n 256) as [Hlt|Hge];
               [ apply (Hb n Hlt); [ndiv_lia | exact H]
               | revert H; unfold byte_of_N;
                 destruct (Byte.of_N n) as [b|] eqn:E;
                 [ apply Byte.to_of_N in E; pose proof (Byte.to_N_bounded b); lia
                 | discriminate ] ]
           end.
Qed.

Lemma utf8_no_lf t :
  forallb (fun c => 32 <=? c) t = true -> ~ In x0a (flat_map utf8_char t).
Proof.
  intros H Hin. apply in_flat_map in Hin. destruct Hin as [c [Hc Hin]].
  rewrite forallb_forall in H. specialize (H c Hc). apply N.leb_le in H.
  revert Hin. apply utf8_char_no_lf. lia.
Qed.

(** ** Reading back a string *)

Lemma push_scanstring_short c t :
  c <> 34 -> c <> 92 -> 32 <= c ->
  scanstring (c :: t) = push c (scanstring t).
Proof.
  intros H1 H2 H3. cbn [scanstring].
  rewrite (proj2 (N.eqb_neq c 34)) by assumption.
  rewrite (proj2 (N.eqb_neq c 92)) by assumption.
  rewrite (proj2 (N.ltb_ge c 32)) by assumption.
  reflexivity.
Qed.

Lemma control_cases c :
  c < 32 ->
  In c [0; 1; 2; 3; 4; 5; 6; 7; 8; 9; 10; 11; 12; 13; 14; 15; 16; 17; 18;
        19; 20; 21; 22; 23; 24; 25; 26; 27; 28; 29; 30; 31].
Proof.
  intros H.
  replace c with (N.of_nat (N.to_nat c)) by apply N2Nat.id.
  assert (Hn : (N.to_nat c < 32)%nat) by lia.
  revert Hn. generalize (N.to_nat c). intros n Hn.
  do 32 (destruct n as [|n]; [cbn; tauto|]). lia.
Qed.

(** What [escape_char] writes for a character, [scanstring] reads as
    that character. *)
Lemma scanstring_escape c t :
  scanstring (escape_char c ++ t) = push c (scanstring t).
Proof.
  destruct (N.ltb_spec c 32) as [Hc|Hc].
  - apply control_cases in Hc. cbn [In] in Hc.
    repeat (destruct Hc as [<-|Hc];
            [destruct t as [|? [|? [|? [|? [|? [|? ?]]]]]]; reflexivity|]).
    contradiction.
  - unfold escape_char.
    destruct (N.eqb_spec c 92) as [->|H92]; [reflexivity|].
    destruct (N.eqb_spec c 34) as [->|H34]; [reflexivity|].
    repeat match goal with
           | |- context [if ?x =? ?k then _ else _] =>
               rewrite (proj2 (N.eqb_neq x k)) by lia
           end.
    rewrite (proj2 (N.ltb_ge c 32)) by assumption.
    apply push_scanstring_short; assumption.
Qed.

Lemma scanstring_escaped s rest :
  scanstring (flat_map escape_char s ++ 34 :: rest) = Some (s, rest).
Proof.
  induction s as [|c s IH]; [reflexivity|].
  cbn [flat_map]. rewrite <- List.app_assoc, scanstring_escape, IH. reflexivity.
Qed.

Lemma scanstring_basestring s rest :
  exists t, encode_basestring s ++ rest = 34 :: t
            /\ scanstring t = Some (s, rest).
Proof.
  exists (flat_map escape_char s ++ 34 :: rest). split.
  - unfold encode_basestring. cbn [List.app]. f_equal.
    rewrite <- List.app_assoc. reflexivity.
  - apply scanstring_escaped.
Qed.

(** ** Reading back a number *)

Lemma scan_digits_uint u rest :
  not_digit_start rest = true -> scan_digits (uint_text u ++ rest) = (u, rest).
Proof.
  intros H. induction u; cbn [uint_text List.app scan_digits];
    try (change (is_digit _) with true; cbv iota; rewrite IHu; reflexivity).
  destruct rest as [|c r]; [reflexivity|]. cbn [scan_digits].
  cbn [not_digit_start] in H. apply negb_true_iff in H. rewrite H. reflexivity.
Qed.

Lemma follows_cases rest :
  follows rest = true ->
  rest = [] \/ exists c r, rest = c :: r /\ (c = 44 \/ c = 93 \/ c = 125).
Proof.
  destruct rest as [|c r]; [auto|]. cbn [follows]. intros H. right.
  exists c, r. split; [reflexivity|].
  destruct (N.eqb_spec c 44); [auto|].
  destruct (N.eqb_spec c 93); [auto|].
  destruct (N.eqb_spec c 125); [auto|]. discriminate.
Qed.

Ltac follows_by_cases H :=
  destruct (follows_cases _ H) as [-> | [? [? [-> [-> | [-> | ->]]]]]];
  reflexivity.

Lemma follows_not_digit rest : follows rest = true -> not_digit_start rest = true.
Proof. intros H. follows_by_cases H. Qed.

Lemma match_integer_uint ip tail :
  int_part_ok ip = true -> not_digit_start tail = true ->
  match_integer (uint_text ip ++ tail) = Some (ip, tail).
Proof.
  intros Hip Ht.
  destruct ip as [|u|u|u|u|u|u|u|u|u|u]; try discriminate;
    try (unfold match_integer;
         rewrite <- (scan_digits_uint _ tail Ht); reflexivity).
  destruct u; try discriminate. reflexivity.
Qed.

Lemma match_frac_none s :
  match s with [] => true | c :: _ => negb (c =? 46) end = true ->
  match_frac s = (None, s).
Proof.
  destruct s as [|c r]; [reflexivity|]. intros H.
  apply negb_true_iff in H. unfold match_frac. rewrite H. reflexivity.
Qed.

Lemma match_exp_none s :
  match s with [] => true | c :: _ => negb ((c =? 101) || (c =? 69)) end = true ->
  match_exp s = (None, s).
Proof.
  destruct s as [|c r]; [reflexivity|]. intros H.
  apply negb_true_iff in H. unfold match_exp. rewrite H. reflexivity.
Qed.

Lemma match_exp_text exp rest :
  match exp with Some (_, e) => digits_ok e | None => true end = true ->
  follows rest = true ->
  match_exp (exp_text exp ++ rest) = (exp, rest).
Proof.
  intros He Hr. destruct exp as [[eneg e]|].
  - assert (Hd := scan_digits_uint e rest (follows_not_digit _ Hr)).
    unfold exp_text, match_exp.
    destruct eneg; cbn [txt List.map list_ascii_of_string List.app];
      change (N_of_ascii "e") with 101; cbv beta iota;
      change ((101 =? 101) || (101 =? 69)) with true; cbv iota;
      unfold match_sign;
      [ change (N_of_ascii "-") with 45 | change (N_of_ascii "+") with 43 ];
      cbv beta iota.
    + change (45 =? 45) with true. cbv iota. rewrite Hd.
      destruct e; try discriminate; reflexivity.
    + change (43 =? 45) with false. change (43 =? 43) with true. cbv iota.
      rewrite Hd. destruct e; try discriminate; reflexivity.
  - apply match_exp_none. follows_by_cases Hr.
Qed.

Lemma uint_text_head ip tail :
  int_part_ok ip = true ->
  exists c r, uint_text ip ++ tail = c :: r /\ is_digit c = true.
Proof.
  destruct ip; try discriminate; intros _; eexists; eexists;
    (split; [reflexivity | reflexivity]).
Qed.

Lemma digit_range c : is_digit c = true -> 48 <= c <= 57.
Proof.
  unfold is_digit. intros H. apply andb_true_iff in H. destruct H as [H1 H2].
  apply N.leb_le in H1. apply N.leb_le in H2. lia.
Qed.

Lemma after_digits_exp exp rest :
  follows rest = true -> after_digits (exp_text exp ++ rest) = true.
Proof.
  intros H. destruct exp as [[eneg e]|]; [reflexivity|].
  cbn [exp_text List.app]. follows_by_cases H.
Qed.

Lemma after_digits_not_digit tail :
  after_digits tail = true -> not_digit_start tail = true.
Proof.
  destruct tail as [|c r]; [reflexivity|]. cbn [after_digits not_digit_start].
  intros H. apply andb_true_iff in H. tauto.
Qed.

Lemma match_frac_text frac tail :
  match frac with Some f => digits_ok f | None => true end = true ->
  after_digits tail = true ->
  match_frac (frac_text frac ++ tail) = (frac, tail).
Proof.
  intros Hf Ht. destruct frac as [f|].
  - assert (Hd := scan_digits_uint f tail (after_digits_not_digit _ Ht)).
    unfold frac_text, match_frac.
    cbn [txt List.map list_ascii_of_string List.app].
    change (N_of_ascii ".") with 46. change (46 =? 46) with true. cbv iota.
    rewrite Hd. destruct f; try discriminate; reflexivity.
  - apply match_frac_none. cbn [frac_text List.app].
    destruct tail as [|c r]; [reflexivity|]. cbn [after_digits] in Ht.
    apply andb_true_iff in Ht. tauto.
Qed.

Lemma not_digit_frac frac exp rest :
  follows rest = true ->
  not_digit_start (frac_text frac ++ exp_text exp ++ rest) = true.
Proof.
  intros H. destruct frac as [f|]; [reflexivity|]. cbn [frac_text List.app].
  apply after_digits_not_digit, after_digits_exp. exact H.
Qed.

(** The pattern of a number matches the whole literal of a float or an
    integer, group by group. *)
Lemma match_number_repr neg ip frac exp rest :
  int_part_ok ip = true ->
  match frac with Some f => digits_ok f | None => true end = true ->
  match exp with Some (_, e) => digits_ok e | None => true end = true ->
  follows rest = true ->
  match_number (floatstr (FRepr neg ip frac exp) ++ rest)
  = Some (neg, ip, frac, exp, rest).
Proof.
  intros Hip Hf He Hr.
  change (floatstr (FRepr neg ip frac exp))
    with ((if neg then txt "-" else []) ++ uint_text ip
            ++ frac_text frac ++ exp_text exp).
  rewrite <- !List.app_assoc.
  assert (Hi := match_integer_uint ip _ Hip (not_digit_frac frac exp rest Hr)).
  assert (Hfr := match_frac_text frac _ Hf (after_digits_exp exp rest Hr)).
  assert (Hex := match_exp_text exp rest He Hr).
  unfold match_number. destruct neg.
  - cbn [txt List.map list_ascii_of_string List.app].
    change (N_of_ascii "-" =? 45) with true. cbv iota.
    rewrite Hi, Hfr, Hex. reflexivity.
  - cbn [List.app].
    destruct (uint_text_head ip (frac_text frac ++ exp_text exp ++ rest) Hip)
      as [c [r [E Hc]]].
    rewrite E in *. apply digit_range in Hc.
    rewrite (proj2 (N.eqb_neq c 45)) by lia.
    rewrite Hi, Hfr, Hex. reflexivity.
Qed.

Lemma strip_prefix_head p0 p c r :
  c <> p0 -> strip_prefix (p0 :: p) (c :: r) = None.
Proof.
  intros H. cbn [strip_prefix]. rewrite (proj2 (N.eqb_neq c p0)) by assumption.
  reflexivity.
Qed.

(** On a text that starts with a digit or a minus sign the scanner goes
    to the pattern of a number. *)
Lemma scan_once_number fuel c r neg ip frac exp rest :
  (is_digit c || (c =? 45)) = true ->
  match_number (c :: r) = Some (neg, ip, frac, exp, rest) ->
  scan_once (S fuel) (c :: r)
  = Some (match frac, exp with
          | None, None => PyInt (Z.of_int (if neg then Neg ip else Pos ip))
          | _, _ => PyFloat (FRepr neg ip frac exp)
          end, rest).
Proof.
  intros Hc Hm.
  assert (Hr : c = 45 \/ 48 <= c <= 57).
  { apply orb_true_iff in Hc. destruct Hc as [Hc|Hc].
    - right. apply digit_range. exact Hc.
    - left. apply N.eqb_eq. exact Hc. }
  cbn [scan_once].
  rewrite (proj2 (N.eqb_neq c 34)) by lia.
  rewrite (proj2 (N.eqb_neq c 123)) by lia.
  rewrite (proj2 (N.eqb_neq c 91)) by lia.
  cbn [txt List.map list_ascii_of_string].
  rewrite !strip_prefix_head by (cbn; lia).
  rewrite Hm. destruct frac, exp; reflexivity.
Qed.

Lemma unorm_int_part_ok u : unorm u = u -> int_part_ok u = true.
Proof.
  assert (Hnz : forall d v, nzhead d <> D0 v).
  { induction d; cbn [nzhead]; intros v; try discriminate. apply IHd. }
  destruct u; intros H; try reflexivity.
  - discriminate.
  - rewrite unorm_D0 in H. unfold unorm in H.
    destruct (nzhead u) eqn:E; try discriminate.
    + inversion H. reflexivity.
    + exfalso. rewrite <- E in H. exact (Hnz _ _ H).
Qed.

Lemma to_int_int_part_ok z : int_part_ok (abs (Z.to_int z)) = true.
Proof.
  apply unorm_int_part_ok.
  assert (H := DecimalZ.to_of (Z.to_int z)). rewrite DecimalZ.of_to in H.
  destruct (Z.to_int z) as [u|u] eqn:E; cbn [abs norm] in *.
  - injection H as H1. symmetry. exact H1.
  - unfold unorm. destruct (nzhead u) eqn:En; try discriminate;
      injection H as H1; symmetry; exact H1.
Qed.

(** ** Reading back a value *)

Lemma skip_ws_starts s : starts_value s = true -> skip_ws s = s.
Proof.
  destruct s as [|c r]; [discriminate|]. cbn [starts_value skip_ws].
  intros H. apply andb_true_iff in H. destruct H as [H _].
  apply andb_true_iff in H. destruct H as [H _].
  apply negb_true_iff in H. rewrite H. reflexivity.
Qed.

Lemma expect_starts s :
  starts_value s = true -> expect 93 s = None /\ expect 125 s = None.
Proof.
  destruct s as [|c r]; [discriminate|]. cbn [starts_value expect].
  intros H. apply andb_true_iff in H. destruct H as [H H3].
  apply andb_true_iff in H. destruct H as [_ H2].
  apply negb_true_iff in H2. apply negb_true_iff in H3.
  rewrite H2, H3. auto.
Qed.

Lemma digit_starts c r : is_digit c = true -> starts_value (c :: r) = true.
Proof.
  intros H. apply digit_range in H. cbn [starts_value]. unfold is_ws.
  rewrite (proj2 (N.eqb_neq c 32)), (proj2 (N.eqb_neq c 9)),
    (proj2 (N.eqb_neq c 10)), (proj2 (N.eqb_neq c 13)),
    (proj2 (N.eqb_neq c 93)), (proj2 (N.eqb_neq c 125)) by lia.
  reflexivity.
Qed.

Lemma number_text_head neg ip frac exp rest :
  int_part_ok ip = true ->
  exists c r, floatstr (FRepr neg ip frac exp) ++ rest = c :: r
              /\ (is_digit c || (c =? 45)) = true.
Proof.
  intros Hip.
  change (floatstr (FRepr neg ip frac exp))
    with ((if neg then txt "-" else []) ++ uint_text ip
            ++ frac_text frac ++ exp_text exp).
  rewrite <- !List.app_assoc. destruct neg.
  - eexists. eexists. split; reflexivity.
  - destruct (uint_text_head ip (frac_text frac ++ exp_text exp ++ rest) Hip)
      as [c [r [E Hc]]].
    exists c, r. cbn [List.app]. rewrite E, Hc. auto.
Qed.

Lemma number_starts c r :
  (is_digit c || (c =? 45)) = true -> starts_value (c :: r) = true.
Proof.
  intros H. apply orb_true_iff in H. destruct H as [H|H].
  - apply digit_starts. exact H.
  - apply N.eqb_eq in H. subst c. reflexivity.
Qed.

Lemma int_text_floatstr i :
  int_text i = floatstr (FRepr (int_neg i) (abs i) None None).
Proof. destruct i; cbn; rewrite List.app_nil_r; reflexivity. Qed.

(** Every serialization starts as a value must. *)
Lemma iterencode_starts v level rest :
  pyjson_ok v = true ->
  starts_value (iterencode None level v ++ rest) = true.
Proof.
  destruct v as [ | b | z | f | s | lst | dct ]; intros Hok;
    try reflexivity.
  - destruct b; reflexivity.
  - cbn [iterencode]. rewrite int_text_floatstr.
    destruct (number_text_head (int_neg (Z.to_int z)) (abs (Z.to_int z))
                None None rest (to_int_int_part_ok z)) as [c [r [E Hc]]].
    rewrite E. apply number_starts. exact Hc.
  - destruct f as [ | | | neg ip frac exp]; try reflexivity.
    cbn [iterencode]. cbn [pyjson_ok float_ok] in Hok.
    apply andb_true_iff in Hok. destruct Hok as [Hok _].
    apply andb_true_iff in Hok. destruct Hok as [Hok _].
    apply andb_true_iff in Hok. destruct Hok as [Hip _].
    destruct (number_text_head neg ip frac exp rest Hip) as [c [r [E Hc]]].
    rewrite E. apply number_starts. exact Hc.
  - destruct lst; reflexivity.
  - destruct dct; reflexivity.
Qed.

(** [dict(pairs)] of pairs with distinct keys is the pairs. *)
Lemma text_eqb_eq a b : text_eqb a b = true <-> a = b.
Proof.
  revert b. induction a as [|x a IH]; intros [|y b]; cbn [text_eqb];
    try (split; [discriminate | discriminate]); [tauto|].
  rewrite andb_true_iff, N.eqb_eq, IH. split.
  - intros [-> ->]. reflexivity.
  - intros H. inversion H. auto.
Qed.

Lemma keys_distinct_NoDup ks : keys_distinct ks = true -> NoDup ks.
Proof.
  induction ks as [|k ks IH]; cbn [keys_distinct]; intros H; constructor.
  - apply andb_true_iff in H. destruct H as [H _].
    apply negb_true_iff in H. intros Hin.
    assert (E : existsb (text_eqb k) ks = true).
    { apply existsb_exists. exists k. split; [exact Hin|].
      apply text_eqb_eq. reflexivity. }
    congruence.
  - apply IH. apply andb_true_iff in H. tauto.
Qed.

Lemma dict_set_fresh d k v :
  ~ In k (List.map fst d) -> dict_set d k v = d ++ [(k, v)].
Proof.
  induction d as [|[k' v'] d IH]; cbn [dict_set List.map fst In List.app];
    intros H; [reflexivity|].
  destruct (text_eqb k k') eqn:E.
  - apply text_eqb_eq in E. subst. tauto.
  - rewrite IH by tauto. reflexivity.
Qed.

Lemma dict_of_pairs_distinct d :
  keys_distinct (List.map fst d) = true -> dict_of_pairs d = d.
Proof.
  intros H. apply keys_distinct_NoDup in H. unfold dict_of_pairs.
  assert (G : forall acc, NoDup (List.map fst (acc ++ d)) ->
                 fold_left (fun a kv => dict_set a (fst kv) (snd kv)) d acc
                 = acc ++ d).
  { clear H. induction d as [|[k v] d IH]; intros acc Hn; cbn [fold_left].
    - rewrite List.app_nil_r. reflexivity.
    - cbn [fst snd]. rewrite dict_set_fresh.
      + rewrite IH; rewrite <- List.app_assoc; [reflexivity | exact Hn].
      + rewrite map_app in Hn. cbn [List.map fst] in Hn.
        apply NoDup_remove_2 in Hn. intros Hin. apply Hn.
        apply in_or_app. auto. }
  apply (G []). exact H.
Qed.

(** Steps of the scanner on characters that are known. *)
Ltac chars :=
  cbn [skip_ws expect is_ws N.eqb Pos.eqb orb andb negb List.app].

Section Items.

(** The encoding of the items of a list or of a dict, and what the
    induction gives for each of them. *)
Variable enc : pyjson -> text.

Lemma join_cons sep a b l :
  join sep (a :: b :: l) = a ++ sep ++ join sep (b :: l).
Proof. reflexivity. Qed.

Lemma join_starts x l rest :
  (reads_back enc) x ->
  starts_value (join [44; 32]%N (List.map enc (x :: l)) ++ rest) = true.
Proof.
  intros [Hs _]. cbn [List.map]. destruct l as [|y l].
  - apply Hs.
  - cbn [List.map]. rewrite join_cons, <- List.app_assoc. apply Hs.
Qed.

Lemma array_items_join l :
  Forall (reads_back enc) l ->
  forall x fuel rest,
    (reads_back enc) x ->
    (List.length (join [44; 32]%N (List.map enc (x :: l))) < fuel)%nat ->
    array_items fuel (join [44; 32]%N (List.map enc (x :: l)) ++ 93 :: rest)
    = Some (x :: l, rest).
Proof.
  induction 1 as [|y l Hy Hl IH]; intros x fuel rest Hx Hlen;
    destruct fuel as [|fuel]; try lia.
  - cbn [List.map join] in *. cbn [array_items].
    destruct Hx as [_ Hx]. rewrite Hx by (try reflexivity; lia).
    chars. reflexivity.
  - cbn [List.map] in *. rewrite join_cons in *.
    rewrite !length_app in Hlen. cbn [List.length] in Hlen.
    rewrite <- !List.app_assoc. cbn [array_items].
    destruct Hx as [_ Hx]. rewrite Hx by (try reflexivity; lia).
    chars.
    rewrite skip_ws_starts by (apply (join_starts y l); exact Hy).
    rewrite IH by (try assumption; lia).
    reflexivity.
Qed.

Lemma item_starts kv rest : starts_value ((enc_item enc) kv ++ rest) = true.
Proof. destruct kv as [k v]. reflexivity. Qed.

Lemma items_starts kv d rest :
  starts_value (join [44; 32]%N (List.map (enc_item enc) (kv :: d)) ++ rest) = true.
Proof.
  cbn [List.map]. destruct d as [|kv' d].
  - apply item_starts.
  - cbn [List.map]. rewrite join_cons, <- List.app_assoc. apply item_starts.
Qed.

Lemma object_item_scan k v fuel tail :
  (reads_back enc) v ->
  (List.length ((enc_item enc) (k, v)) <= fuel)%nat -> follows tail = true ->
  exists t, (enc_item enc) (k, v) ++ tail = 34 :: t
            /\ scanstring t = Some (k, key_separator ++ enc v ++ tail)
            /\ scan_once fuel (enc v ++ tail) = Some (v, tail).
Proof.
  intros [_ Hv] Hlen Ht. cbn [enc_item] in *.
  rewrite !length_app in Hlen.
  destruct (scanstring_basestring k (key_separator ++ enc v ++ tail))
    as [t [E Hsc]].
  exists t. rewrite <- !List.app_assoc. split; [exact E|]. split; [exact Hsc|].
  apply Hv; [lia | exact Ht].
Qed.

Lemma object_items_join d :
  Forall (fun kv => (reads_back enc) (snd kv)) d ->
  forall kv fuel rest,
    (reads_back enc) (snd kv) ->
    (List.length (join [44; 32]%N (List.map (enc_item enc) (kv :: d))) < fuel)%nat ->
    object_items fuel (join [44; 32]%N (List.map (enc_item enc) (kv :: d)) ++ 125 :: rest)
    = Some (kv :: d, rest).
Proof.
  induction 1 as [|kv' d Hy Hl IH]; intros [k v] fuel rest Hx Hlen;
    destruct fuel as [|fuel]; try lia; cbn [snd] in Hx.
  - cbn [List.map join] in *.
    destruct (object_item_scan k v fuel (125 :: rest) Hx) as [t [E [Hs Hv]]];
      [lia | reflexivity |].
    etransitivity; [exact (f_equal (object_items (S fuel)) E)|].
    cbn [object_items]. chars. rewrite Hs.
    assert (Hsk : skip_ws (enc v ++ 125 :: rest) = enc v ++ 125 :: rest)
      by (apply skip_ws_starts; apply Hx).
    change key_separator with [58; 32]. chars.
    rewrite Hsk, Hv. chars. reflexivity.
  - cbn [List.map] in *. rewrite join_cons in *.
    rewrite !length_app in Hlen. cbn [List.length] in Hlen.
    rewrite <- !List.app_assoc.
    destruct (object_item_scan k v fuel
                ([44; 32] ++ join [44; 32]%N ((enc_item enc) kv' :: List.map (enc_item enc) d)
                   ++ 125 :: rest) Hx) as [t [E [Hs Hv]]];
      [lia | reflexivity |].
    etransitivity; [exact (f_equal (object_items (S fuel)) E)|].
    cbn [object_items]. chars. rewrite Hs.
    match type of Hv with
    | scan_once _ ?s = _ =>
        assert (Hsk : skip_ws s = s) by (apply skip_ws_starts; apply Hx)
    end.
    change key_separator with [58; 32]. chars.
    cbn [List.app] in Hsk, Hv. rewrite Hsk, Hv. chars.
    rewrite skip_ws_starts by (apply (items_starts kv' d)).
    rewrite IH by (try assumption; lia).
    reflexivity.
Qed.

End Items.

Lemma iterencode_list level x l :
  iterencode None level (PyList (x :: l))
  = 91 :: join [44; 32] (List.map (iterencode None (S level)) (x :: l)) ++ [93].
Proof. reflexivity. Qed.

Lemma iterencode_dict level kv d :
  iterencode None level (PyDict (kv :: d))
  = 123 :: join [44; 32]
             (List.map (enc_item (iterencode None (S level))) (kv :: d)) ++ [125].
Proof. reflexivity. Qed.

(** The scanner reads back every value from what the encoder wrote for
    it, given fuel for the length of the text. *)
Lemma iterencode_reads_back v :
  pyjson_ok v = true -> forall level, reads_back (iterencode None level) v.
Proof.
  induction v as [ | b | z | f | s | lst IH | dct IH ] using pyjson_induction;
    intros Hok level; (split; [intros rest; apply iterencode_starts; exact Hok|]);
    intros fuel rest Hlen Hrest.
  - destruct fuel; [cbn in Hlen; lia | reflexivity].
  - destruct b; (destruct fuel; [cbn in Hlen; lia | reflexivity]).
  - cbn [iterencode] in *. rewrite int_text_floatstr in *.
    destruct (number_text_head (int_neg (Z.to_int z)) (abs (Z.to_int z))
                None None rest (to_int_int_part_ok z)) as [c [r [E Hc]]].
    assert (Hm := match_number_repr (int_neg (Z.to_int z)) (abs (Z.to_int z))
                    None None rest (to_int_int_part_ok z) eq_refl eq_refl Hrest).
    rewrite E in *.
    destruct fuel as [|fuel].
    { destruct (number_text_head (int_neg (Z.to_int z)) (abs (Z.to_int z))
                  None None [] (to_int_int_part_ok z)) as [c0 [r0 [E0 _]]].
      rewrite List.app_nil_r in E0. rewrite E0 in Hlen. cbn in Hlen. lia. }
    rewrite (scan_once_number _ _ _ _ _ _ _ _ Hc Hm).
    replace (if int_neg (Z.to_int z) then Neg (abs (Z.to_int z))
             else Pos (abs (Z.to_int z))) with (Z.to_int z)
      by (destruct (Z.to_int z); reflexivity).
    rewrite DecimalZ.of_to. reflexivity.
  - destruct f as [ | | | neg ip frac exp];
      try (destruct fuel; [cbn in Hlen; lia | reflexivity]).
    cbn [iterencode] in *. cbn [pyjson_ok float_ok] in Hok.
    apply andb_true_iff in Hok. destruct Hok as [Hok Hfe].
    apply andb_true_iff in Hok. destruct Hok as [Hok He].
    apply andb_true_iff in Hok. destruct Hok as [Hip Hf].
    destruct (number_text_head neg ip frac exp rest Hip) as [c [r [E Hc]]].
    assert (Hm := match_number_repr neg ip frac exp rest Hip Hf He Hrest).
    rewrite E in *.
    destruct fuel as [|fuel].
    { destruct (number_text_head neg ip frac exp [] Hip) as [c0 [r0 [E0 _]]].
      rewrite List.app_nil_r in E0. rewrite E0 in Hlen. cbn in Hlen. lia. }
    rewrite (scan_once_number _ _ _ _ _ _ _ _ Hc Hm).
    destruct frac, exp; try reflexivity. discriminate.
  - cbn [iterencode] in *.
    destruct (scanstring_basestring s rest) as [t [E Hs]].
    destruct fuel as [|fuel]; [cbn in Hlen; lia|].
    rewrite E. cbn [scan_once]. chars. rewrite Hs. reflexivity.
  - destruct lst as [|x l].
    { destruct fuel; [cbn in Hlen; lia | reflexivity]. }
    rewrite iterencode_list in *.
    cbn [pyjson_ok forallb] in Hok. apply andb_true_iff in Hok.
    destruct Hok as [Hx Hl].
    inversion IH as [|? ? IHx IHl]; subst.
    assert (Rx : reads_back (iterencode None (S level)) x) by (apply IHx; exact Hx).
    assert (Rl : Forall (reads_back (iterencode None (S level))) l).
    { rewrite forallb_forall in Hl. rewrite Forall_forall in IHl |- *.
      intros y Hy. apply IHl; auto. }
    cbn [List.length] in Hlen. rewrite length_app in Hlen.
    cbn [List.length] in Hlen.
    destruct fuel as [|fuel]; [lia|].
    cbn [List.app]. rewrite <- List.app_assoc. cbn [List.app scan_once]. chars.
    rewrite skip_ws_starts by (apply join_starts; exact Rx).
    rewrite (proj1 (expect_starts _ (join_starts _ x l _ Rx))).
    rewrite array_items_join by (try assumption; lia).
    reflexivity.
  - destruct dct as [|kv d].
    { destruct fuel; [cbn in Hlen; lia | reflexivity]. }
    rewrite iterencode_dict in *.
    assert (Hd := Hok). cbn [pyjson_ok] in Hd. apply andb_true_iff in Hd.
    destruct Hd as [Hkeys Hd].
    assert (Rd : Forall (fun kv => reads_back (iterencode None (S level)) (snd kv))
                   (kv :: d)).
    { rewrite forallb_forall in Hd. rewrite Forall_forall in IH |- *.
      intros [k v] Hkv. apply (IH _ Hkv). specialize (Hd _ Hkv).
      cbn beta iota in Hd. apply andb_true_iff in Hd. cbn [snd]. tauto. }
    inversion Rd as [|? ? Rkv Rd']; subst.
    cbn [List.length] in Hlen. rewrite length_app in Hlen.
    cbn [List.length] in Hlen.
    destruct fuel as [|fuel]; [lia|].
    cbn [List.app]. rewrite <- List.app_assoc. cbn [List.app scan_once]. chars.
    rewrite skip_ws_starts by apply items_starts.
    rewrite (proj2 (expect_starts _ (items_starts _ kv d _))).
    rewrite object_items_join by (try assumption; lia).
    rewrite dict_of_pairs_distinct by exact Hkeys.
    reflexivity.
Qed.

(** [json.loads(json.dumps(data, ensure_ascii=False))] is [data]. *)
Lemma loads_dumps data :
  pyjson_ok data = true -> loads (dumps None data) = Some data.
Proof.
  intros Hok. unfold loads, dumps.
  destruct (iterencode_reads_back data Hok 0%nat) as [Hs Hr].
  assert (Hs0 := Hs []). rewrite List.app_nil_r in Hs0.
  rewrite skip_ws_starts by exact Hs0.
  assert (H := Hr (S (List.length (iterencode None 0 data))) []).
  rewrite List.app_nil_r in H. rewrite H by (try reflexivity; lia).
  reflexivity.
Qed.

(** ** The lines of the log *)

Lemma eqb_lf_false x : x <> x0a -> Byte.eqb x x0a = false.
Proof.
  intros H. destruct (Byte.eqb x x0a) eqn:E; [|reflexivity].
  apply Byte.byte_dec_bl in E. contradiction.
Qed.

Lemma split_lines_no_lf l : ~ In x0a l -> split_lines l = ([], l).
Proof.
  induction l as [|x l IH]; intros H; [reflexivity|].
  cbn [split_lines]. rewrite IH by (intros Hin; apply H; right; exact Hin).
  rewrite eqb_lf_false by (intros E; apply H; left; exact E).
  reflexivity.
Qed.

Lemma split_lines_app b c ls :
  split_lines b = (ls, []) ->
  split_lines (b ++ c) = (ls ++ fst (split_lines c), snd (split_lines c)).
Proof.
  revert ls. induction b as [|x b IH]; intros ls H.
  - inversion H. cbn [List.app]. destruct (split_lines c). reflexivity.
  - cbn [split_lines List.app] in *.
    destruct (split_lines b) as [ls' rest'].
    destruct (Byte.eqb x x0a).
    + inversion H. subst. rewrite (IH ls' eq_refl). reflexivity.
    + destruct ls' as [|l ls'']; inversion H. subst.
      rewrite (IH (l :: ls'') eq_refl). reflexivity.
Qed.

Lemma split_lines_line l : ~ In x0a l -> split_lines (l ++ [x0a]) = ([l], []).
Proof.
  induction l as [|x l IH]; intros H; [reflexivity|].
  cbn [split_lines List.app]. rewrite IH by (intros Hin; apply H; right; exact Hin).
  rewrite eqb_lf_false by (intros E; apply H; left; exact E).
  reflexivity.
Qed.

Lemma parse_lines_app a b :
  parse_lines (a ++ b)
  = match parse_lines a, parse_lines b with
    | Some x, Some y => Some (x ++ y)
    | _, _ => None
    end.
Proof.
  induction a as [|l a IH]; cbn [parse_lines List.app].
  - destruct (parse_lines b); reflexivity.
  - rewrite IH. destruct (parse_line l), (parse_lines a), (parse_lines b);
      reflexivity.
Qed.

(** A log that reads as the records [rs] reads, with one more
    terminated line, as [rs] and the record of that line. *)
Lemma read_log_append b l v rs :
  read_log b = Some rs -> ~ In x0a l -> parse_line l = Some v ->
  read_log (b ++ l ++ [x0a]) = Some (rs ++ [v]).
Proof.
  unfold read_log. intros Hb Hl Hv.
  destruct (split_lines b) as [ls [|x rest]] eqn:E; [|discriminate].
  rewrite (split_lines_app b (l ++ [x0a]) ls E), split_lines_line by exact Hl.
  cbn [fst snd]. rewrite parse_lines_app, Hb. cbn [parse_lines].
  rewrite Hv. reflexivity.
Qed.

(** The line of a record holds no line feed and reads back, on its own,
    as the record. *)
Lemma record_line_no_lf data : ~ In x0a (record_line data).
Proof. apply utf8_no_lf. apply dumps_no_control. Qed.

Lemma record_line_decodes data :
  pyjson_ok data = true -> surrogate_free (dumps None data) = true ->
  utf8_decode (record_line data) = Some (dumps None data).
Proof.
  intros Hok Hs. apply utf8_roundtrip; [exact Hs | apply dumps_below; exact Hok].
Qed.

Lemma parse_record_line data :
  pyjson_ok data = true -> surrogate_free (dumps None data) = true ->
  parse_line (record_line data) = Some data.
Proof.
  intros Hok Hs. unfold parse_line.
  rewrite record_line_decodes by assumption. apply loads_dumps. exact Hok.
Qed.

(** ** The steps of [receive_usage] *)

(** The announcement does not touch the file. *)
Lemma announce_disk env data w w' r :
  announce env data w = (w', r) -> disk w' = disk w.
Proof.
  unfold announce, bind. intros H.
  repeat match type of H with
         | context [print ?s ?v] =>
             let E := fresh "E" in
             destruct (print s v) as [? [?|?]] eqn:E; apply print_disk in E
         end;
    inversion H; subst; congruence.
Qed.

Lemma txt_surrogate_free s : surrogate_free (txt s) = true.
Proof.
  apply below_surrogate_free. apply below_weaken with (n := 256); [lia|].
  apply txt_below.
Qed.

(** A body without surrogates is announced in full. *)
Lemma announce_ok env data w :
  no_surrogates data = true ->
  exists out, announce env data w = (mkWorld (stdout w ++ out) (disk w), inr tt).
Proof.
  intros H. unfold announce, bind.
  rewrite print_ok by reflexivity. cbn [stdout disk].
  rewrite print_ok
    by (rewrite !surrogate_free_app, !txt_surrogate_free; reflexivity).
  cbn [stdout disk].
  rewrite print_ok by (apply dumps_surrogate_free; exact H).
  cbn [stdout disk].
  rewrite print_ok by reflexivity. cbn [stdout disk].
  eexists. rewrite <- !List.app_assoc. reflexivity.
Qed.

Lemma record_bytes data :
  flat_map utf8_char (dumps None data ++ [10]) = record_line data ++ [x0a].
Proof. unfold record_line. rewrite flat_map_app. reflexivity. Qed.

(** What appending a record does, case by case: [open] fails; the line
    cannot be encoded; the flush fails; the line is in the file. *)
Lemma append_record_run env data w :
  append_record env data w =
    match open_fails env with
    | Some (errno, strerror) =>
        (w, inl (OSError errno strerror (Some "usage_log.jsonl"%string)))
    | None =>
        match utf8_encode (dumps None data ++ [10]) with
        | inl e => (mkWorld (stdout w) (disk w ++ []), inl e)
        | inr _ =>
            match flush_fails env with
            | Some (accepted, errno, strerror) =>
                (mkWorld (stdout w)
                   (disk w ++ firstn accepted (record_line data ++ [x0a])),
                 inl (OSError errno strerror None))
            | None =>
                (mkWorld (stdout w) (disk w ++ record_line data ++ [x0a]),
                 inr tt)
            end
        end
    end.
Proof.
  unfold append_record, with_open_append.
  destruct (open_fails env) as [[errno strerror]|]; [reflexivity|].
  unfold write. cbn [buffered List.app].
  destruct (utf8_encode (dumps None data ++ [10])) as [e|b] eqn:E.
  - reflexivity.
  - apply utf8_encode_inr in E. destruct E as [_ ->].
    rewrite record_bytes. unfold close. cbn [buffered].
    destruct (record_line data ++ [x0a]) as [|x b] eqn:Eb.
    { destruct (record_line data); discriminate. }
    destruct (flush_fails env) as [[[accepted errno] strerror]|]; reflexivity.
Qed.

Lemma usage_try_data env request data w :
  json request = JsonData data ->
  usage_try env request w =
    match announce env data w with
    | (w1, inl e) => (w1, inl e)
    | (w1, inr _) =>
        match append_record env data w1 with
        | (w2, inl e) => (w2, inl e)
        | (w2, inr _) => (w2, inr ok_response)
        end
    end.
Proof.
  intros H. unfold usage_try, bind, get_json, ret. rewrite H. reflexivity.
Qed.

Lemma usage_try_abort env request code name description w :
  json request = JsonAbort code name description ->
  usage_try env request w = (w, inl (HTTPException code name description)).
Proof.
  intros H. unfold usage_try, bind, get_json, raise. rewrite H. reflexivity.
Qed.

Lemma usage_try_raised env request e w :
  raised (json request) = Some e -> usage_try env request w = (w, inl e).
Proof.
  unfold usage_try, bind, get_json, raise, raised.
  destruct (json request); intros H; inversion H; reflexivity.
Qed.

Lemma raised_or_data j :
  (exists data, j = JsonData data) \/ (exists e, raised j = Some e).
Proof. destruct j; cbn [raised]; eauto. Qed.

(** The [try] block ends without exception only with the record in the
    file. *)
Lemma usage_try_passed env request w w' r :
  usage_try env request w = (w', inr r) ->
  exists data,
    json request = JsonData data /\ r = ok_response
    /\ surrogate_free (dumps None data) = true
    /\ disk w' = disk w ++ record_line data ++ [x0a].
Proof.
  intros H. destruct (raised_or_data (json request)) as [[data Ej]|[e0 Ej]].
  2:{ rewrite (usage_try_raised _ _ _ _ Ej) in H. discriminate. }
  exists data. rewrite (usage_try_data _ _ _ _ Ej) in H.
  destruct (announce env data w) as [w1 [e|u]] eqn:Ea; [discriminate|].
  apply announce_disk in Ea.
  rewrite append_record_run in H.
  destruct (open_fails env) as [[errno strerror]|]; [discriminate|].
  destruct (utf8_encode (dumps None data ++ [10])) as [e|b] eqn:Ee;
    [discriminate|].
  destruct (flush_fails env) as [[[accepted errno] strerror]|]; [discriminate|].
  inversion H. subst. cbn [disk]. rewrite Ea.
  apply utf8_encode_inr in Ee. destruct Ee as [Es _].
  rewrite surrogate_free_app in Es. apply andb_true_iff in Es.
  destruct Es as [Es _]. auto.
Qed.

(** Whatever happens, a request only adds to the file, and what it adds
    is the start of the line of its record, or nothing. *)
Lemma usage_try_disk env request w w' x :
  usage_try env request w = (w', x) ->
  disk w' = disk w
  \/ exists data accepted,
       json request = JsonData data
       /\ disk w' = disk w ++ firstn accepted (record_line data ++ [x0a]).
Proof.
  intros H. destruct (raised_or_data (json request)) as [[data Ej]|[e0 Ej]].
  2:{ rewrite (usage_try_raised _ _ _ _ Ej) in H. inversion H. auto. }
  rewrite (usage_try_data _ _ _ _ Ej) in H.
  destruct (announce env data w) as [w1 [e|u]] eqn:Ea;
    apply announce_disk in Ea; [inversion H; subst; auto|].
  rewrite append_record_run in H.
  destruct (open_fails env) as [[errno strerror]|];
    [inversion H; subst; auto|].
  destruct (utf8_encode (dumps None data ++ [10])) as [e|b] eqn:Ee.
  { inversion H. subst. cbn [disk]. rewrite List.app_nil_r. auto. }
  destruct (flush_fails env) as [[[accepted errno] strerror]|];
    inversion H; subst; cbn [disk]; rewrite Ea; right; exists data.
  - exists accepted. auto.
  - exists (List.length (record_line data ++ [x0a])).
    rewrite firstn_all. auto.
Qed.

Lemma receive_usage_disk env request w w' x :
  receive_usage env request w = (w', x) ->
  disk w' = disk w
  \/ exists data accepted,
       json request = JsonData data
       /\ disk w' = disk w ++ firstn accepted (record_line data ++ [x0a]).
Proof.
  rewrite receive_usage_blocks. unfold try_except.
  destruct (usage_try env request w) as [w1 [e|r]] eqn:E; intros H.
  - rewrite usage_except_run in H. inversion H. subst. cbn [disk].
    eapply usage_try_disk. exact E.
  - inversion H. subst. eapply usage_try_disk. exact E.
Qed.

Lemma firstn_line_lines l accepted :
  ~ In x0a l ->
  (List.length (fst (split_lines (firstn accepted (l ++ [x0a])))) <= 1)%nat.
Proof.
  intros Hl. rewrite firstn_app.
  destruct (Nat.leb_spec accepted (List.length l)) as [Hk|Hk].
  - replace (accepted - List.length l)%nat with 0%nat by lia.
    cbn [firstn]. rewrite List.app_nil_r.
    rewrite split_lines_no_lf; [cbn; lia|].
    intros Hin. apply Hl. rewrite <- (firstn_skipn accepted l).
    apply in_or_app. left. exact Hin.
  - rewrite firstn_all2 by lia.
    destruct (accepted - List.length l)%nat as [|n] eqn:En; [lia|].
    cbn [firstn]. replace (firstn n []) with (@nil byte) by (destruct n; reflexivity).
    rewrite split_lines_line by exact Hl. cbn. lia.
Qed.

(** A 200 is the answer of a [try] block that ended without exception. *)
Lemma receive_usage_200 env request w w' r :
  receive_usage env request w = (w', inr r) -> status r = 200%nat ->
  usage_try env request w = (w', inr r).
Proof.
  rewrite receive_usage_blocks. unfold try_except.
  destruct (usage_try env request w) as [w1 [e|r1]] eqn:E; intros H Hs.
  - rewrite usage_except_run in H. inversion H. subst. discriminate.
  - exact H.
Qed.

(** A body that can be encoded, in surroundings that do not fail, is
    answered 200 with its line in the file. *)
Lemma valid_body_steps env request w w' x data :
  receive_usage env request w = (w', x) ->
  json request = JsonData data ->
  pyjson_ok data = true -> no_surrogates data = true ->
  open_fails env = None -> flush_fails env = None ->
  x = inr ok_response
  /\ disk w' = disk w ++ record_line data ++ [x0a]
  /\ ~ In x0a (record_line data)
  /\ parse_line (record_line data) = Some data
  /\ forall rs, read_log (disk w) = Some rs ->
                read_log (disk w') = Some (rs ++ [data]).
Proof.
  intros H Hj Hok Hns Ho Hf.
  assert (Hsf : surrogate_free (dumps None data) = true)
    by (apply dumps_surrogate_free; exact Hns).
  rewrite receive_usage_blocks in H. unfold try_except in H.
  rewrite (usage_try_data _ _ _ _ Hj) in H.
  destruct (announce_ok env data w Hns) as [out Ea]. rewrite Ea in H.
  rewrite append_record_run, Ho, Hf in H.
  rewrite utf8_encode_ok in H
    by (rewrite surrogate_free_app, Hsf; reflexivity).
  inversion H. subst. cbn [disk].
  assert (Hp : parse_line (record_line data) = Some data)
    by (apply parse_record_line; assumption).
  repeat split; auto using record_line_no_lf.
  intros rs Hrs. apply read_log_append; auto using record_line_no_lf.
Qed.

(** No exception leaves the view: every request is answered. *)
Lemma receive_usage_answers env request w :
  exists w' r, receive_usage env request w = (w', inr r).
Proof.
  rewrite receive_usage_blocks. unfold try_except.
  destruct (usage_try env request w) as [w1 [e|r]].
  - rewrite usage_except_run. eauto.
  - eauto.
Qed.

(** Requests served one after the other leave their records in the
    order they were served in. *)
Lemma posts_recorded_in_order posts :
  Forall (fun p => open_fails (fst p) = None /\ flush_fails (fst p) = None
                   /\ pyjson_ok (snd p) = true /\ no_surrogates (snd p) = true)
         posts ->
  forall w rs,
    read_log (disk w) = Some rs ->
    read_log (disk (fst (serve
        (List.map (fun p => PostUsage (fst p) (mkRequest (JsonData (snd p)))) posts)
        w)))
    = Some (rs ++ List.map snd posts).
Proof.
  induction 1 as [|[env data] posts [Ho [Hf [Hok Hns]]] _ IH]; intros w rs Hrs.
  - cbn. rewrite List.app_nil_r. exact Hrs.
  - cbn [List.map serve dispatch fst snd] in *.
    destruct (receive_usage env (mkRequest (JsonData data)) w) as [w1 x] eqn:E.
    destruct (valid_body_steps _ _ _ _ _ data E eq_refl Hok Hns Ho Hf)
      as [_ [_ [_ [_ Hr]]]].
    specialize (IH w1 (rs ++ [data]) (Hr rs Hrs)).
    destruct (serve _ w1) as [w2 answers]. cbn [fst] in *.
    rewrite IH, <- List.app_assoc. reflexivity.
Qed.

(* ================================================================= *)
(** * The claims *)

(** ** A body that is valid JSON *)

(** C1, as amended.  For every request on which [request.json] yields
    the value [data], a value Python can hold, within the limits of
    the interpreter and without a lone surrogate in its strings: when
    neither [open] nor the flush fails, the view answers 200 with the
    success body, and the file grows by exactly one line, the encoded
    serialization and its terminator; the line holds no other line
    feed and reads back, on its own, as [data], so that a log that
    read as the records [rs] reads as [rs] and [data].  And whatever
    [request.json] does and whatever the surroundings, what a request
    adds to the file holds at most one line: there is one append and
    no retry. *)
Theorem valid_body_recorded_once env request w w' x :
  receive_usage env request w = (w', x) ->
  (exists added,
     disk w' = disk w ++ added
     /\ (List.length (fst (split_lines added)) <= 1)%nat)
  /\ (forall data,
        json request = JsonData data ->
        pyjson_ok data = true -> within_limits data = true ->
        no_surrogates data = true ->
        open_fails env = None -> flush_fails env = None ->
        x = inr ok_response
        /\ disk w' = disk w ++ record_line data ++ [x0a]
        /\ ~ In x0a (record_line data)
        /\ parse_line (record_line data) = Some data
        /\ forall rs, read_log (disk w) = Some rs ->
                      read_log (disk w') = Some (rs ++ [data])).
Proof.
  intros H. split.
  - destruct (receive_usage_disk _ _ _ _ _ H)
      as [E | [data [accepted [_ E]]]]; rewrite E.
    + exists []. rewrite List.app_nil_r. split; [reflexivity | cbn; lia].
    + eexists. split; [reflexivity|].
      apply firstn_line_lines. apply record_line_no_lf.
  - intros data Hj Hok _ Hns Ho Hf.
    apply (valid_body_steps env request w w' x data); assumption.
Qed.

(** The sample request on the sample log, with surroundings that do not
    fail. *)
Lemma valid_body_recorded_once_witness :
  exists w',
    receive_usage env_ok usage_request world0 = (w', inr ok_response)
    /\ disk w' = disk world0 ++ record_line usage_data ++ [x0a]
    /\ read_log (disk w') = Some [PyDict []; usage_data].
Proof.
  exists (fst (receive_usage env_ok usage_request world0)).
  assert (H : receive_usage env_ok usage_request world0
              = (fst (receive_usage env_ok usage_request world0),
                 inr ok_response))
    by (vm_compute; reflexivity).
  destruct (valid_body_recorded_once _ _ _ _ _ H) as [_ G].
  destruct (G usage_data eq_refl eq_refl eq_refl eq_refl eq_refl eq_refl)
    as [_ [Hd [_ [_ Hr]]]].
  split; [exact H|]. split; [exact Hd|].
  apply (Hr [PyDict []]). vm_compute. reflexivity.
Defined.

(** C1 as it is stated fails.  The body ["\ud800"] is valid JSON and
    its value is a string of one surrogate; the file can be written;
    printing the body raises [UnicodeEncodeError], the view answers 500
    and the file is as it was.  The sample body, when [open] is
    refused, is answered 500 as well.  And so is a body of valid JSON
    on which [request.json] raises [RecursionError], lists nested a
    thousand deep. *)
Lemma valid_body_not_always_recorded :
  loads (34 :: txt "\ud800" ++ [34]) = Some surrogate_data
  /\ pyjson_ok surrogate_data = true
  /\ within_limits surrogate_data = true
  /\ (exists w' r,
        receive_usage env_ok surrogate_request world0 = (w', inr r)
        /\ status r = 500%nat /\ disk w' = disk world0)
  /\ (exists w' r,
        receive_usage env_denied usage_request world0 = (w', inr r)
        /\ status r = 500%nat /\ disk w' = disk world0)
  /\ (exists w' r,
        receive_usage env_ok deep_request world0 = (w', inr r)
        /\ status r = 500%nat /\ disk w' = disk world0).
Proof.
  split; [vm_compute; reflexivity|]. split; [reflexivity|].
  split; [vm_compute; reflexivity|].
  repeat split; eexists; eexists; (split; [vm_compute; reflexivity|]);
    split; reflexivity.
Qed.

(** ** A body that is not valid JSON *)

(** C2, as amended.  For every request on which [request.json] raises
    [e], be it the 400 Bad Request Flask aborts with on a body its
    parser rejects or an exception of the parser that Flask lets
    through, the [try] block ends there, before the announcement and
    the append, and [e] is caught by the [except Exception] clause: the
    view answers 500, not 400, with the body [status: error] and
    [str(e)] as message; nothing is appended, the file is as it was. *)
Theorem invalid_body_answered_500 env request e w :
  raised (json request) = Some e ->
  usage_try env request w = (w, inl e)
  /\ receive_usage env request w
     = (mkWorld (stdout w ++ (msg_error ++ str e) ++ [10]) (disk w),
        inr (error_response e))
  /\ status (error_response e) = 500%nat
  /\ status (error_response e) <> 400%nat
  /\ body (error_response e)
     = jsonify [(txt "status", PyStr (txt "error"));
                (txt "message", PyStr (str e))]
  /\ disk (fst (receive_usage env request w)) = disk w
  /\ appended env request = [].
Proof.
  intros He.
  assert (Ht := usage_try_raised env request e w He).
  assert (H := receive_usage_caught env request w w e Ht).
  split; [exact Ht|]. split; [exact H|]. rewrite H.
  split; [reflexivity|]. split; [discriminate|]. split; [reflexivity|].
  split; [reflexivity|].
  unfold appended. destruct (json request); [discriminate | reflexivity ..].
Qed.

(** The body [not-json]: 500 with the text of the 400 as message, and
    the file as it was. *)
Lemma invalid_body_answered_500_witness :
  exists out,
    receive_usage env_ok not_json_request world0
    = (mkWorld out (disk world0),
       inr (mkResponse
              (PyDict [(txt "status", PyStr (txt "error"));
                       (txt "message",
                        PyStr (txt "400 Bad Request: Failed to decode JSON object: Expecting value: line 1 column 1 (char 0)"))])
              500)).
Proof.
  destruct (invalid_body_answered_500 env_ok not_json_request
              (HTTPException 400 "Bad Request"
                 "Failed to decode JSON object: Expecting value: line 1 column 1 (char 0)")
              world0 eq_refl) as [_ [H _]].
  eexists. exact H.
Defined.

(** C2 as it is stated fails, twice.  The body [not-json] is not valid
    JSON, [request.json] aborts with 400 and the view answers 500.
    And the body [NaN] is not valid JSON either, yet [json.loads]
    reads it as a float: the view answers 200 and appends the line
    [NaN] to the file. *)
Lemma invalid_body_not_400 :
  loads (txt "not-json") = None
  /\ (exists w' r,
        receive_usage env_ok not_json_request world0 = (w', inr r)
        /\ status r = 500%nat /\ status r <> 400%nat)
  /\ loads (txt "NaN") = Some (PyFloat FNaN)
  /\ (exists w',
        receive_usage env_ok nan_request world0 = (w', inr ok_response)
        /\ status ok_response = 200%nat
        /\ disk w' = disk world0 ++ list_byte_of_string "NaN" ++ [x0a]).
Proof.
  split; [vm_compute; reflexivity|]. split.
  - eexists. eexists. split; [vm_compute; reflexivity|].
    split; [reflexivity | discriminate].
  - split; [vm_compute; reflexivity|].
    eexists. split; [vm_compute; reflexivity|]. split; reflexivity.
Qed.

(** ** An append that fails *)

(** C3, as amended.  For every request on which appending the record
    raises [e], whether [open] is refused, the line cannot be encoded
    or the flush fails, the view answers 500 with the body
    [status: error] and [str(e)] as message.  What the file held is
    still there, at its beginning, and what was added is a part of the
    start of the record's line; when it is not the flush that failed
    (its [OSError] carries no file name) the file is as it was. *)
Theorem append_failure_answered_500 env request data w w1 w2 e :
  json request = JsonData data ->
  announce env data w = (w1, inr tt) ->
  append_record env data w1 = (w2, inl e) ->
  receive_usage env request w
    = (mkWorld (stdout w2 ++ (msg_error ++ str e) ++ [10]) (disk w2),
       inr (error_response e))
  /\ status (error_response e) = 500%nat
  /\ body (error_response e)
     = jsonify [(txt "status", PyStr (txt "error"));
                (txt "message", PyStr (str e))]
  /\ (exists accepted,
        disk w2 = disk w ++ firstn accepted (record_line data ++ [x0a]))
  /\ match e with
     | OSError _ _ None => True
     | _ => disk w2 = disk w
     end.
Proof.
  intros Hj Ha Hb.
  assert (Ht : usage_try env request w = (w2, inl e))
    by (rewrite (usage_try_data _ _ _ _ Hj), Ha, Hb; reflexivity).
  split; [apply receive_usage_caught; exact Ht|].
  split; [reflexivity|]. split; [reflexivity|].
  apply announce_disk in Ha. rewrite append_record_run in Hb.
  destruct (open_fails env) as [[errno strerror]|].
  { inversion Hb. subst. split; [exists 0%nat; cbn [firstn]|];
      rewrite ?List.app_nil_r; exact Ha. }
  destruct (utf8_encode (dumps None data ++ [10])) as [e'|b] eqn:Ee.
  { inversion Hb. subst. cbn [disk]. rewrite List.app_nil_r.
    unfold utf8_encode in Ee.
    destruct (find_surrogate 0 (dumps None data ++ [10])); inversion Ee.
    split; [exists 0%nat; cbn [firstn]; rewrite List.app_nil_r|]; exact Ha. }
  destruct (flush_fails env) as [[[accepted errno] strerror]|];
    inversion Hb. subst. cbn [disk]. rewrite Ha.
  split; [exists accepted; reflexivity | exact I].
Qed.

(** The sample request when [open] is refused: 500, and the file as it
    was. *)
Lemma append_failure_answered_500_witness :
  exists w1 w2 w',
    announce env_denied usage_data world0 = (w1, inr tt)
    /\ append_record env_denied usage_data w1
       = (w2, inl (OSError 13 "Permission denied" (Some "usage_log.jsonl"%string)))
    /\ receive_usage env_denied usage_request world0
       = (w', inr (error_response
                     (OSError 13 "Permission denied" (Some "usage_log.jsonl"%string))))
    /\ disk w2 = disk world0.
Proof.
  exists (fst (announce env_denied usage_data world0)).
  exists (fst (announce env_denied usage_data world0)).
  eexists.
  assert (Ha : announce env_denied usage_data world0
               = (fst (announce env_denied usage_data world0), inr tt))
    by (vm_compute; reflexivity).
  assert (Hb : append_record env_denied usage_data
                 (fst (announce env_denied usage_data world0))
               = (fst (announce env_denied usage_data world0),
                  inl (OSError 13 "Permission denied"
                         (Some "usage_log.jsonl"%string))))
    by reflexivity.
  destruct (append_failure_answered_500 env_denied usage_request usage_data
              _ _ _ _ eq_refl Ha Hb) as [H1 [_ [_ [_ H5]]]].
  split; [exact Ha|]. split; [exact Hb|]. split; [exact H1 | exact H5].
Defined.

(** C3 as it is stated fails: when the medium takes three bytes of the
    line and is full, the view answers 500 and the three bytes stay in
    the file, after what it held. *)
Lemma failed_flush_leaves_bytes :
  exists w' r,
    receive_usage env_full usage_request world0 = (w', inr r)
    /\ status r = 500%nat
    /\ disk w' = disk world0 ++ firstn 3 (record_line usage_data)
    /\ disk w' <> disk world0.
Proof.
  eexists. eexists. split; [vm_compute; reflexivity|].
  split; [reflexivity|]. split; [vm_compute; reflexivity | discriminate].
Qed.

(** ** The answer and the file *)

(** C4.  For every request answered 200, the record was serialized,
    encoded, written and flushed before the answer: the [try] block
    went through the announcement and through the append, which
    returned, the file closed, with the whole line in the file, and the
    world the answer is returned with is the one the append left.  The
    bytes in the file are the record: the line, read on its own, is the
    body of the request, and a file that read as the records [rs]
    reads as [rs] and the body. *)
Theorem success_after_flush env request w w' r :
  receive_usage env request w = (w', inr r) -> status r = 200%nat ->
  exists data w1,
    json request = JsonData data
    /\ announce env data w = (w1, inr tt)
    /\ append_record env data w1 = (w', inr tt)
    /\ utf8_encode (dumps None data ++ [10]) = inr (record_line data ++ [x0a])
    /\ disk w' = disk w ++ record_line data ++ [x0a]
    /\ (pyjson_ok data = true ->
        parse_line (record_line data) = Some data
        /\ forall rs, read_log (disk w) = Some rs ->
                      read_log (disk w') = Some (rs ++ [data])).
Proof.
  intros H Hs. apply receive_usage_200 in H; [|exact Hs].
  destruct (usage_try_passed _ _ _ _ _ H) as [data [Hj [_ [Hsf Hd]]]].
  exists data. rewrite (usage_try_data _ _ _ _ Hj) in H.
  destruct (announce env data w) as [w1 [e|[]]] eqn:Ea; [discriminate|].
  destruct (append_record env data w1) as [w2 [e|[]]] eqn:Eb; [discriminate|].
  inversion H. subst. exists w1.
  split; [exact Hj|]. split; [reflexivity|]. split; [exact Eb|].
  split.
  { rewrite utf8_encode_ok, record_bytes; [reflexivity|].
    rewrite surrogate_free_app, Hsf. reflexivity. }
  split; [exact Hd|].
  intros Hok.
  assert (Hp : parse_line (record_line data) = Some data)
    by (apply parse_record_line; assumption).
  split; [exact Hp|].
  intros rs Hrs. rewrite Hd.
  apply read_log_append; auto using record_line_no_lf.
Qed.

Lemma success_after_flush_witness :
  exists w',
    receive_usage env_ok usage_request world0 = (w', inr ok_response)
    /\ status ok_response = 200%nat
    /\ disk w' = disk world0 ++ record_line usage_data ++ [x0a]
    /\ parse_line (record_line usage_data) = Some usage_data
    /\ read_log (disk w') = Some [PyDict []; usage_data].
Proof.
  exists (fst (receive_usage env_ok usage_request world0)).
  assert (H : receive_usage env_ok usage_request world0
              = (fst (receive_usage env_ok usage_request world0),
                 inr ok_response))
    by (vm_compute; reflexivity).
  destruct (success_after_flush _ _ _ _ _ H eq_refl)
    as [data [w1 [Hj [_ [_ [_ [Hd Hr]]]]]]].
  injection Hj as <-.
  destruct (Hr eq_refl) as [Hp Hl].
  split; [exact H|]. split; [reflexivity|]. split; [exact Hd|].
  split; [exact Hp|].
  apply (Hl [PyDict []]). vm_compute. reflexivity.
Defined.

(** C5, as amended.  Every record appended by a request that is
    answered 200 is exactly one line.  The serialization
    holds no character below U+0020, so neither a line feed nor a
    carriage return; what a request answered 200 adds to the file is
    the utf-8 encoding of the serialization, without the byte 0A, and
    one line feed after it; the line decodes and parses, on its own, as
    the record.  So a file that is a line-delimited JSON log, its lines
    reading as the records [rs], is one after the append, and reads as
    [rs] and the new record: nothing before, between or after the
    lines. *)
Theorem appended_record_is_one_line env request data w w' r :
  receive_usage env request w = (w', inr r) -> status r = 200%nat ->
  json request = JsonData data -> pyjson_ok data = true ->
  forallb (fun c => 32 <=? c) (dumps None data) = true
  /\ disk w' = disk w ++ record_line data ++ [x0a]
  /\ ~ In x0a (record_line data)
  /\ split_lines (record_line data ++ [x0a]) = ([record_line data], [])
  /\ utf8_decode (record_line data) = Some (dumps None data)
  /\ loads (dumps None data) = Some data
  /\ forall rs, read_log (disk w) = Some rs ->
                read_log (disk w') = Some (rs ++ [data]).
Proof.
  intros H Hs Hj Hok. apply receive_usage_200 in H; [|exact Hs].
  destruct (usage_try_passed _ _ _ _ _ H) as [data' [Hj' [_ [Hsf Hd]]]].
  rewrite Hj in Hj'. injection Hj' as <-.
  split; [apply dumps_no_control|]. split; [exact Hd|].
  split; [apply record_line_no_lf|].
  split; [apply split_lines_line, record_line_no_lf|].
  split; [apply record_line_decodes; assumption|].
  split; [apply loads_dumps; exact Hok|].
  intros rs Hrs. rewrite Hd.
  apply read_log_append; auto using record_line_no_lf, parse_record_line.
Qed.

Lemma appended_record_is_one_line_witness :
  exists w',
    receive_usage env_ok usage_request world0 = (w', inr ok_response)
    /\ split_lines (disk w')
       = ([list_byte_of_string "{}"; record_line usage_data], [])
    /\ read_log (disk w') = Some [PyDict []; usage_data].
Proof.
  exists (fst (receive_usage env_ok usage_request world0)).
  assert (H : receive_usage env_ok usage_request world0
              = (fst (receive_usage env_ok usage_request world0),
                 inr ok_response))
    by (vm_compute; reflexivity).
  destruct (appended_record_is_one_line _ _ usage_data _ _ _ H
              eq_refl eq_refl eq_refl) as [_ [_ [_ [_ [_ [_ Hr]]]]]].
  split; [exact H|]. split; [vm_compute; reflexivity|].
  apply (Hr [PyDict []]). vm_compute. reflexivity.
Defined.

(** C5 as it is stated fails: not every append keeps the file a
    line-delimited JSON log.  On a log of one record, an append whose
    flush fails after three bytes is answered 500 and leaves the three
    bytes, a line without its end: the file no longer reads as a log.
    The next request is answered 200, and its line lands on the three
    bytes: the file holds two terminated lines, the second of which
    is not the record and does not parse. *)
Lemma append_on_fragment_breaks_log :
  read_log (disk world0) = Some [PyDict []]
  /\ exists w1 r1 w2,
       receive_usage env_full usage_request world0 = (w1, inr r1)
       /\ status r1 = 500%nat
       /\ disk w1 = disk world0 ++ firstn 3 (record_line usage_data)
       /\ read_log (disk w1) = None
       /\ receive_usage env_ok usage_request w1 = (w2, inr ok_response)
       /\ disk w2 = disk w1 ++ record_line usage_data ++ [x0a]
       /\ split_lines (disk w2)
          = ([list_byte_of_string "{}";
              firstn 3 (record_line usage_data) ++ record_line usage_data], [])
       /\ parse_line (firstn 3 (record_line usage_data)
                        ++ record_line usage_data) = None
       /\ read_log (disk w2) = None.
Proof.
  split; [vm_compute; reflexivity|].
  do 3 eexists. split; [vm_compute; reflexivity|].
  split; [reflexivity|]. split; [vm_compute; reflexivity|].
  split; [vm_compute; reflexivity|]. split; [vm_compute; reflexivity|].
  repeat split; vm_compute; reflexivity.
Qed.

(** ** The health view *)

(** C7.  The health view answers 200 with the body
    [{"status": "healthy"}] on every invocation: whatever calls were
    served before it, with whatever outcome, and whatever calls follow,
    its answer in the run is this one; and it leaves the world as it
    finds it. *)
Theorem health_always_healthy before after w :
  nth_error (snd (serve (before ++ GetHealth :: after) w)) (List.length before)
  = Some (inr healthy_response)
  /\ health (fst (serve before w))
     = (fst (serve before w), inr healthy_response)
  /\ status healthy_response = 200%nat
  /\ body healthy_response = PyDict [(txt "status", PyStr (txt "healthy"))].
Proof.
  split; [|repeat split].
  revert w. induction before as [|c before IH]; intros w.
  - cbn [List.app serve dispatch health ret List.length].
    destruct (serve after w). reflexivity.
  - cbn [List.app serve List.length].
    destruct (dispatch c w) as [w1 r1]. specialize (IH w1).
    destruct (serve (before ++ GetHealth :: after) w1). exact IH.
Qed.

(** ** The same body twice *)

(** C8, as amended.  Nothing is recognized as a duplicate: for every
    request on which [request.json] yields the value [data], a value
    Python can hold, within the limits of the interpreter and without
    a lone surrogate, posted twice while neither [open] nor the flush
    fails, both requests are answered 200 and the file grows by two
    lines, each the line of [data], each reading back as [data]. *)
Theorem same_body_twice_two_records env1 env2 request data w :
  json request = JsonData data ->
  pyjson_ok data = true -> within_limits data = true ->
  no_surrogates data = true ->
  open_fails env1 = None -> flush_fails env1 = None ->
  open_fails env2 = None -> flush_fails env2 = None ->
  exists w1 w2,
    receive_usage env1 request w = (w1, inr ok_response)
    /\ receive_usage env2 request w1 = (w2, inr ok_response)
    /\ disk w2 = disk w ++ (record_line data ++ [x0a])
                        ++ (record_line data ++ [x0a])
    /\ split_lines ((record_line data ++ [x0a]) ++ (record_line data ++ [x0a]))
       = ([record_line data; record_line data], [])
    /\ parse_line (record_line data) = Some data
    /\ forall rs, read_log (disk w) = Some rs ->
                  read_log (disk w2) = Some (rs ++ [data; data]).
Proof.
  intros Hj Hok _ Hns Ho1 Hf1 Ho2 Hf2.
  destruct (receive_usage env1 request w) as [w1 x1] eqn:E1.
  destruct (receive_usage env2 request w1) as [w2 x2] eqn:E2.
  destruct (valid_body_steps env1 request w w1 x1 data E1)
    as [-> [Hd1 [Hl [Hp Hr1]]]]; auto.
  destruct (valid_body_steps env2 request w1 w2 x2 data E2)
    as [-> [Hd2 [_ [_ Hr2]]]]; auto.
  exists w1, w2. repeat split; auto.
  - rewrite Hd2, Hd1, <- !List.app_assoc. reflexivity.
  - rewrite (split_lines_app _ _ [record_line data] (split_lines_line _ Hl)).
    rewrite split_lines_line by exact Hl. reflexivity.
  - intros rs Hrs. rewrite (Hr2 (rs ++ [data]) (Hr1 rs Hrs)).
    rewrite <- List.app_assoc. reflexivity.
Qed.

Lemma same_body_twice_two_records_witness :
  exists w1 w2,
    receive_usage env_ok usage_request world0 = (w1, inr ok_response)
    /\ receive_usage env_ok usage_request w1 = (w2, inr ok_response)
    /\ read_log (disk w2) = Some [PyDict []; usage_data; usage_data].
Proof.
  destruct (same_body_twice_two_records env_ok env_ok usage_request usage_data
              world0 eq_refl eq_refl eq_refl eq_refl eq_refl eq_refl eq_refl
              eq_refl)
    as [w1 [w2 [H1 [H2 [_ [_ [_ Hr]]]]]]].
  exists w1, w2. split; [exact H1|]. split; [exact H2|].
  apply (Hr [PyDict []]). vm_compute. reflexivity.
Defined.

(** C8 as it is stated fails: the body [[1, "\udc00"]] is valid JSON;
    posted twice while the file can be written, it is answered 500
    twice and the file is as it was. *)
Lemma same_body_twice_no_record :
  loads (txt "[1, " ++ 34 :: txt "\udc00" ++ 34 :: txt "]")
  = Some (PyList [PyInt 1; PyStr [0xDC00]])
  /\ pyjson_ok (PyList [PyInt 1; PyStr [0xDC00]]) = true
  /\ within_limits (PyList [PyInt 1; PyStr [0xDC00]]) = true
  /\ exists w1 r1 w2 r2,
       receive_usage env_ok surrogate_list_request world0 = (w1, inr r1)
       /\ receive_usage env_ok surrogate_list_request w1 = (w2, inr r2)
       /\ status r1 = 500%nat /\ status r2 = 500%nat
       /\ disk w2 = disk world0.
Proof.
  split; [vm_compute; reflexivity|]. split; [reflexivity|].
  split; [vm_compute; reflexivity|].
  do 4 eexists. split; [vm_compute; reflexivity|].
  split; [vm_compute; reflexivity|]. repeat split; reflexivity.
Qed.

(** ** The bodies of the answers *)

(** C9.  For every request on which the [try] block raises [e], the
    view answers 500 and the [message] of the body is exactly
    [str(e)]: the text of the error, such as the operating system's,
    goes to the caller as it is. *)
Theorem error_message_is_str_of_exception env request w w1 e :
  usage_try env request w = (w1, inl e) ->
  exists w',
    receive_usage env request w = (w', inr (error_response e))
    /\ status (error_response e) = 500%nat
    /\ body (error_response e)
       = PyDict [(txt "status", PyStr (txt "error"));
                 (txt "message", PyStr (str e))].
Proof.
  intros H. eexists. split; [apply receive_usage_caught; exact H|].
  split; reflexivity.
Qed.

Lemma error_message_is_str_of_exception_witness :
  exists w',
    receive_usage env_denied usage_request world0
    = (w', inr (mkResponse
                  (PyDict [(txt "status", PyStr (txt "error"));
                           (txt "message",
                            PyStr (txt "[Errno 13] Permission denied: 'usage_log.jsonl'"))])
                  500)).
Proof.
  assert (H : usage_try env_denied usage_request world0
              = (fst (usage_try env_denied usage_request world0),
                 inl (OSError 13 "Permission denied"
                        (Some "usage_log.jsonl"%string))))
    by (vm_compute; reflexivity).
  destruct (error_message_is_str_of_exception _ _ _ _ _ H) as [w' [H1 _]].
  exists w'. exact H1.
Defined.

(** C10.  Every answer 200 of the usage view carries, beside
    [status: ok], a [message]: a fixed text that is not empty; the body
    is not the bare [{"status": "ok"}]. *)
Theorem success_body_has_message env request w w' r :
  receive_usage env request w = (w', inr r) -> status r = 200%nat ->
  body r = PyDict [(txt "status", PyStr (txt "ok"));
                   (txt "message", PyStr msg_received)]
  /\ msg_received <> []
  /\ body r <> PyDict [(txt "status", PyStr (txt "ok"))].
Proof.
  intros H Hs. apply receive_usage_200 in H; [|exact Hs].
  destruct (usage_try_passed _ _ _ _ _ H) as [data [_ [-> _]]].
  repeat split; discriminate.
Qed.

Lemma success_body_has_message_witness :
  exists w' r,
    receive_usage env_ok usage_request world0 = (w', inr r)
    /\ status r = 200%nat
    /\ body r = PyDict [(txt "status", PyStr (txt "ok"));
                        (txt "message", PyStr msg_received)].
Proof.
  exists (fst (receive_usage env_ok usage_request world0)), ok_response.
  assert (H : receive_usage env_ok usage_request world0
              = (fst (receive_usage env_ok usage_request world0),
                 inr ok_response))
    by (vm_compute; reflexivity).
  destruct (success_body_has_message _ _ _ _ _ H eq_refl) as [Hb _].
  split; [exact H|]. split; [reflexivity | exact Hb].
Defined.

(* ================================================================= *)
(** * Further properties of the views *)

(** ** A surrogate in the body reaches the text *)

Lemma forallb_false_in {A} (f : A -> bool) l :
  forallb f l = false -> exists x, In x l /\ f x = false.
Proof.
  induction l as [|x l IH]; cbn [forallb]; intros H; [discriminate|].
  apply andb_false_iff in H. destruct H as [H|H].
  - exists x. split; [left; reflexivity | exact H].
  - destruct (IH H) as [y [Hy Hf]]. exists y. split; [right; exact Hy | exact Hf].
Qed.

Lemma forallb_in_false {A} (f : A -> bool) l x :
  In x l -> f x = false -> forallb f l = false.
Proof.
  intros Hin Hf. destruct (forallb f l) eqn:E; [|reflexivity].
  rewrite forallb_forall in E. rewrite (E x Hin) in Hf. discriminate.
Qed.

Section Raw.

(** A test that fails only on characters the encoder writes as they
    are. *)
Variable p : codepoint -> bool.
Hypothesis p_raw : forall c, p c = false -> escape_char c = [c].

Lemma app_fails_l (a b : text) :
  forallb p a = false -> forallb p (a ++ b) = false.
Proof. intros H. rewrite forallb_app, H. reflexivity. Qed.

Lemma app_fails_r (a b : text) :
  forallb p b = false -> forallb p (a ++ b) = false.
Proof. intros H. rewrite forallb_app, H. apply andb_false_r. Qed.

Lemma join_fails sep parts t :
  In t parts -> forallb p t = false -> forallb p (join sep parts) = false.
Proof.
  intros Hin Ht. induction parts as [|q parts IH]; [contradiction|].
  destruct parts as [|q' parts'].
  - destruct Hin as [->|[]]. exact Ht.
  - rewrite join_cons. destruct Hin as [->|Hin].
    + apply app_fails_l. exact Ht.
    + apply app_fails_r, app_fails_r. apply IH. exact Hin.
Qed.

Lemma encode_basestring_fails s :
  forallb p s = false -> forallb p (encode_basestring s) = false.
Proof.
  intros H. destruct (forallb_false_in _ _ H) as [c [Hc Hp]].
  unfold encode_basestring.
  change (34 :: flat_map escape_char s ++ [34])
    with ([34] ++ flat_map escape_char s ++ [34]).
  apply app_fails_r, app_fails_l.
  apply forallb_in_false with (x := c); [|exact Hp].
  apply in_flat_map. exists c. split; [exact Hc|].
  rewrite (p_raw c Hp). left. reflexivity.
Qed.

Lemma bracket_fails indent level opening closing inner :
  forallb p inner = false ->
  forallb p (opening ++ newline_indent indent (S level) ++ inner
               ++ newline_indent indent level ++ closing) = false.
Proof. intros H. apply app_fails_r, app_fails_r, app_fails_l. exact H. Qed.

(** With or without indent, a character of a string of the value that
    fails the test is in the text. *)
Lemma iterencode_fails indent o :
  forall level,
  strings_all p o = false ->
  forallb p (iterencode indent level o) = false.
Proof.
  induction o as [ | b | z | f | s | lst IH | dct IH ] using pyjson_induction;
    intros level Hs; try discriminate.
  - apply encode_basestring_fails. exact Hs.
  - cbn [strings_all] in Hs.
    destruct (forallb_false_in _ _ Hs) as [x [Hx Hf]].
    destruct lst as [|y l]; [contradiction|].
    cbn [iterencode]. apply bracket_fails.
    apply join_fails with (t := iterencode indent (S level) x).
    + apply in_map. exact Hx.
    + rewrite Forall_forall in IH. apply (IH x Hx). exact Hf.
  - cbn [strings_all] in Hs.
    destruct (forallb_false_in _ _ Hs) as [[k v] [Hx Hf]].
    destruct dct as [|y d]; [contradiction|].
    cbn [iterencode]. apply bracket_fails.
    apply join_fails
      with (t := encode_basestring k ++ key_separator
                   ++ iterencode indent (S level) v).
    + apply (in_map (fun kv : text * pyjson =>
                       match kv with
                       | (k0, v0) => encode_basestring k0 ++ key_separator
                                       ++ iterencode indent (S level) v0
                       end) _ (k, v)). exact Hx.
    + cbn beta iota in Hf. apply andb_false_iff in Hf. destruct Hf as [Hk|Hv].
      * apply app_fails_l, encode_basestring_fails. exact Hk.
      * apply app_fails_r, app_fails_r.
        rewrite Forall_forall in IH. apply (IH _ Hx). exact Hv.
Qed.

End Raw.

Lemma surrogate_written_raw c :
  negb (is_surrogate c) = false -> escape_char c = [c].
Proof.
  intros H. apply negb_false_iff in H. unfold is_surrogate in H.
  apply andb_true_iff in H. destruct H as [H _]. apply N.leb_le in H.
  unfold escape_char.
  repeat match goal with
         | |- context [if ?x =? ?k then _ else _] =>
             rewrite (proj2 (N.eqb_neq x k)) by lia
         end.
  rewrite (proj2 (N.ltb_ge c 32)) by lia. reflexivity.
Qed.

Lemma dumps_surrogate indent data :
  no_surrogates data = false -> surrogate_free (dumps indent data) = false.
Proof.
  intros H. unfold dumps, surrogate_free.
  apply iterencode_fails; [exact surrogate_written_raw | exact H].
Qed.

Lemma dumps_surrogate_iff indent data :
  surrogate_free (dumps indent data) = no_surrogates data.
Proof.
  destruct (no_surrogates data) eqn:E.
  - apply dumps_surrogate_free. exact E.
  - apply dumps_surrogate. exact E.
Qed.

Lemma print_raises s w :
  surrogate_free s = false ->
  exists start stop,
    print s w = (w, inl (UnicodeEncodeError "utf-8" s start stop
                           "surrogates not allowed")).
Proof.
  intros H. unfold print, utf8_encode.
  destruct (find_surrogate_some s H 0%nat) as [j Hj]. rewrite Hj. eauto.
Qed.

(** The announcement of a body with a surrogate raises when the body
    is printed, the file untouched. *)
Lemma announce_raises env data w :
  no_surrogates data = false ->
  exists w1 start stop,
    announce env data w
    = (w1, inl (UnicodeEncodeError "utf-8" (dumps (Some 2%nat) data) start stop
                  "surrogates not allowed"))
    /\ disk w1 = disk w.
Proof.
  intros H. unfold announce, bind.
  rewrite print_ok by reflexivity.
  rewrite print_ok
    by (rewrite !surrogate_free_app, !txt_surrogate_free; reflexivity).
  match goal with
  | |- context [print (dumps ?i data) ?v] =>
      destruct (print_raises (dumps i data) v (dumps_surrogate i data H))
        as [start [stop He]]; rewrite He
  end.
  eexists. exists start, stop. split; reflexivity.
Qed.

(** What the view does, case by case: the answer is the success body
    for an accepted request and an error body otherwise, and the file
    grows by [appended]. *)
Lemma receive_usage_run env request w :
  exists out r,
    receive_usage env request w
    = (mkWorld out (disk w ++ appended env request), inr r)
    /\ if accepted_request env request then r = ok_response
       else exists e, r = error_response e.
Proof.
  unfold appended, accepted_request.
  destruct (raised_or_data (json request)) as [[data Ej]|[e0 Ej]].
  2:{ rewrite (receive_usage_caught _ _ w w _ (usage_try_raised _ _ _ w Ej)).
      destruct (json request); try discriminate;
        rewrite List.app_nil_r; eauto. }
  rewrite Ej.
  destruct (no_surrogates data) eqn:Ens.
  - destruct (announce_ok env data w Ens) as [out Ea].
    assert (Hsf : surrogate_free (dumps None data ++ [10]) = true)
      by (rewrite surrogate_free_app, dumps_surrogate_free by exact Ens;
          reflexivity).
    assert (Ht := usage_try_data env request data w Ej).
    rewrite Ea, append_record_run, utf8_encode_ok in Ht by exact Hsf.
    cbn [stdout disk] in Ht.
    destruct (open_fails env) as [[errno strerror]|].
    { rewrite (receive_usage_caught _ _ _ _ _ Ht). cbn [disk].
      rewrite List.app_nil_r. eauto. }
    destruct (flush_fails env) as [[[accepted errno] strerror]|].
    { rewrite (receive_usage_caught _ _ _ _ _ Ht). cbn [disk]. eauto. }
    rewrite receive_usage_blocks. unfold try_except. rewrite Ht. eauto.
  - destruct (announce_raises env data w Ens) as [w1 [start [stop [Ea Hd]]]].
    assert (Ht := usage_try_data env request data w Ej). rewrite Ea in Ht.
    rewrite (receive_usage_caught _ _ _ _ _ Ht). rewrite Hd, List.app_nil_r.
    destruct (open_fails env), (flush_fails env); eauto.
Qed.




(** ** Answers *)

(** X1.  On a utf-8 console no exception leaves the usage view:
    whatever [request.json] yields or raises, and whatever [open] and
    the flush do, the view returns an answer, and the status of the
    answer is 200 or 500. *)
Theorem every_request_answered env request w :
  exists w' r,
    receive_usage env request w = (w', inr r)
    /\ (status r = 200%nat \/ status r = 500%nat).
Proof.
  destruct (receive_usage_run env request w) as [out [r [E Hr]]].
  exists (mkWorld out (disk w ++ appended env request)), r.
  split; [exact E|].
  destruct (accepted_request env request).
  - left. rewrite Hr. reflexivity.
  - right. destruct Hr as [e ->]. reflexivity.
Qed.

(** X3.  On a utf-8 console, and for a body within the limits of the
    interpreter, the answer is 200 exactly when the request is
    accepted: [request.json] yields a value, no string of the value
    holds a surrogate, and neither [open] nor the flush fails; the
    answer is then the success body.  In every other case the answer
    is the 500 of the [except] clause, with the error body of the
    exception that was caught. *)
Theorem answered_200_exactly_when env request w w' r :
  request_within_limits request = true ->
  receive_usage env request w = (w', inr r) ->
  (status r = 200%nat <-> accepted_request env request = true)
  /\ (accepted_request env request = true -> r = ok_response)
  /\ (accepted_request env request = false ->
      status r = 500%nat /\ exists e, r = error_response e).
Proof.
  intros _ H. destruct (receive_usage_run env request w) as [out [r0 [E Hr]]].
  rewrite E in H. injection H as _ <-.
  destruct (accepted_request env request).
  - rewrite Hr. repeat split; discriminate.
  - destruct Hr as [e ->]. repeat split; try discriminate. exists e. reflexivity.
Qed.

(** The sample request is accepted and answered 200; the same request
    when [open] is refused is not, and is answered 500. *)
Lemma answered_200_exactly_when_witness :
  (exists w',
     receive_usage env_ok usage_request world0 = (w', inr ok_response)
     /\ (status ok_response = 200%nat
         <-> accepted_request env_ok usage_request = true))
  /\ (exists w' r,
        receive_usage env_denied usage_request world0 = (w', inr r)
        /\ accepted_request env_denied usage_request = false
        /\ status r = 500%nat).
Proof.
  split.
  - exists (fst (receive_usage env_ok usage_request world0)).
    assert (H : receive_usage env_ok usage_request world0
                = (fst (receive_usage env_ok usage_request world0),
                   inr ok_response))
      by (vm_compute; reflexivity).
    split; [exact H|].
    exact (proj1 (answered_200_exactly_when env_ok usage_request world0 _ _
                    eq_refl H)).
  - exists (fst (receive_usage env_denied usage_request world0)).
    exists (error_response
              (OSError 13 "Permission denied" (Some "usage_log.jsonl"%string))).
    assert (H : receive_usage env_denied usage_request world0
                = (fst (receive_usage env_denied usage_request world0),
                   inr (error_response
                          (OSError 13 "Permission denied"
                             (Some "usage_log.jsonl"%string)))))
      by (vm_compute; reflexivity).
    split; [exact H|]. split; [reflexivity|].
    exact (proj1 (proj2 (proj2 (answered_200_exactly_when env_denied
                                  usage_request world0 _ _ eq_refl H))
                    eq_refl)).
Defined.

(** X4.  On a utf-8 console with strict error handling, a body
    within the limits of the interpreter with a surrogate in one of
    its strings is refused before the file is opened, so whatever
    [open] and the flush would do: the [print] of
    [json.dumps(data, indent=2, ensure_ascii=False)] raises the
    codec's [UnicodeEncodeError], surrogates not allowed, the answer
    is 500 with that error, and the file is as it was. *)
Theorem surrogate_body_refused env request data w :
  json request = JsonData data -> within_limits data = true ->
  no_surrogates data = false ->
  exists out start stop,
    receive_usage env request w
    = (mkWorld out (disk w),
       inr (error_response
              (UnicodeEncodeError "utf-8" (dumps (Some 2%nat) data) start stop
                 "surrogates not allowed")))
    /\ surrogate_free (dumps (Some 2%nat) data) = false
    /\ appended env request = [].
Proof.
  intros Hj _ Hns.
  destruct (announce_raises env data w Hns) as [w1 [start [stop [Ea Hd]]]].
  assert (Ht := usage_try_data env request data w Hj). rewrite Ea in Ht.
  rewrite (receive_usage_caught _ _ _ _ _ Ht), Hd.
  eexists. exists start, stop.
  split; [reflexivity|]. split; [apply dumps_surrogate; exact Hns|].
  unfold appended. rewrite Hj, Hns. reflexivity.
Qed.

Lemma surrogate_body_refused_witness :
  exists out start stop,
    receive_usage env_ok surrogate_request world0
    = (mkWorld out (disk world0),
       inr (error_response
              (UnicodeEncodeError "utf-8" (dumps (Some 2%nat) surrogate_data)
                 start stop "surrogates not allowed"))).
Proof.
  destruct (surrogate_body_refused env_ok surrogate_request surrogate_data
              world0 eq_refl eq_refl eq_refl)
    as [out [start [stop [H _]]]].
  exists out, start, stop. exact H.
Defined.

(** ** The file over a run *)






(** ** The codecs *)

(** X7.  [json.loads(json.dumps(data, ensure_ascii=False))] is [data],
    for every value Python can hold within the limits of the
    interpreter, integers of at most 4300 digits and lists and dicts
    nested at most a hundred deep: quotes, backslashes and control
    characters in strings, numbers, nested lists and dicts come back
    as they were. *)
Theorem json_round_trip data :
  pyjson_ok data = true -> within_limits data = true ->
  loads (dumps None data) = Some data.
Proof. intros Hok _. apply loads_dumps. exact Hok. Qed.

Lemma json_round_trip_witness :
  loads (dumps None usage_data) = Some usage_data.
Proof. exact (json_round_trip usage_data eq_refl eq_refl). Defined.

(** X8.  Encoding a text as utf-8 fails exactly when the text holds a
    surrogate, and what it gives otherwise decodes to the text. *)
Theorem utf8_round_trip t :
  below 0x110000 t = true ->
  match utf8_encode t with
  | inr b => surrogate_free t = true /\ utf8_decode b = Some t
  | inl _ => surrogate_free t = false
  end.
Proof.
  intros Hb. destruct (utf8_encode t) as [e|b] eqn:E.
  - destruct (surrogate_free t) eqn:Es; [|reflexivity].
    rewrite utf8_encode_ok in E by exact Es. discriminate.
  - apply utf8_encode_inr in E. destruct E as [Es ->].
    split; [exact Es | apply utf8_roundtrip; assumption].
Qed.

Lemma utf8_round_trip_witness :
  match utf8_encode msg_received with
  | inr b => surrogate_free msg_received = true
             /\ utf8_decode b = Some msg_received
  | inl _ => surrogate_free msg_received = false
  end.
Proof. exact (utf8_round_trip msg_received eq_refl). Defined.
